(** * stockAnalyser: quote page and news feed scraping pipeline

    A shallow embedding of the code cells of [stockAnalyser.ipynb]
    ([fetch_page], [clean_company_name], [get_company_name],
    [get_current_price], [get_latest_news], [analyze_stock] and the cell
    that runs the pipeline over a list of tickers), with the properties
    of the pipeline stated and proved over it.

    Python values are modelled as follows.
    - A [str] is a list of Unicode code points.
    - A parsed document (a BeautifulSoup object or one of its tags) is a
      tree of tags and text nodes.
    - A function that touches the network runs in a small monad that
      records every request and every parse in a trace and either
      returns a value or raises. *)

From Stdlib Require Import List ZArith NArith Bool Lia String Ascii.
From Equations Require Import Equations.
Import ListNotations.

Set Warnings "-register-all".

(* ===================================================================== *)
(** * Python strings *)
(* ===================================================================== *)

Module PyStr.

(** A code point. *)
Definition char := N.

(** A Python [str]. *)
Definition str := list char.

(** An ASCII literal as a [str]. *)
Definition lit (s : string) : str :=
  map N_of_ascii (list_ascii_of_string s).

Definition chr_lparen : char := 40%N.
Definition chr_rparen : char := 41%N.
Definition chr_newline : char := 10%N.

(** [str.isspace] on one code point; the same set is the class [\s] of
    [re] on [str] patterns and the separator set of [\S+]. *)
Definition isspace (c : char) : bool :=
  (((9 <=? c) && (c <=? 13)) || ((28 <=? c) && (c <=? 32))
   || (c =? 133) || (c =? 160) || (c =? 5760)
   || ((8192 <=? c) && (c <=? 8202))
   || (c =? 8232) || (c =? 8233) || (c =? 8239) || (c =? 8287)
   || (c =? 12288))%N.

Fixpoint str_eqb (a b : str) : bool :=
  match a, b with
  | [], [] => true
  | x :: a', y :: b' => (x =? y)%N && str_eqb a' b'
  | _, _ => false
  end.

(** [s.lstrip()] *)
Fixpoint lstrip (s : str) : str :=
  match s with
  | c :: tl => if isspace c then lstrip tl else s
  | [] => []
  end.

(** [s.rstrip()] *)
Definition rstrip (s : str) : str := rev (lstrip (rev s)).

(** [s.strip()] *)
Definition strip (s : str) : str := rstrip (lstrip s).

(** The maximal runs of non-whitespace characters of [s], in order
    ([re.findall(r"\S+", s)]); [cur] is the run being read, reversed. *)
Fixpoint tokens_from (cur : str) (s : str) : list str :=
  match s with
  | [] => match cur with [] => [] | _ => [rev cur] end
  | c :: tl =>
      if isspace c
      then match cur with
           | [] => tokens_from [] tl
           | _ => rev cur :: tokens_from [] tl
           end
      else tokens_from (c :: cur) tl
  end.

Definition tokens (s : str) : list str := tokens_from [] s.

(** [sub in s] for strings. *)
Fixpoint is_prefix (p s : str) : bool :=
  match p, s with
  | [], _ => true
  | x :: p', y :: s' => (x =? y)%N && is_prefix p' s'
  | _ :: _, [] => false
  end.

Fixpoint contains (sub s : str) : bool :=
  is_prefix sub s ||
  match s with
  | [] => false
  | _ :: tl => contains sub tl
  end.

End PyStr.
Import PyStr.

(* ===================================================================== *)
(** * The fragment of [re] the notebook uses *)
(* ===================================================================== *)

Module Re.

(** One-character classes. *)
Inductive cls :=
| Space                (* \s *)
| Dot                  (* .  (no DOTALL: anything but a line feed) *)
| Lit (c : char).      (* an escaped literal such as \( *)

Definition accepts (k : cls) (c : char) : bool :=
  match k with
  | Space => isspace c
  | Dot => negb (c =? chr_newline)%N
  | Lit d => (c =? d)%N
  end.

(** Pattern items: one character, a greedy star, a lazy star. *)
Inductive item :=
| One (k : cls)
| Star (k : cls)       (* k*  *)
| StarLazy (k : cls).  (* k*? *)

Definition pattern := list item.

(** [re_match p s]: the backtracking match of [p] anchored at the start
    of [s]; the result is what is left of [s] after the match the
    engine finds first (greedy stars try the longest run first, lazy
    stars the shortest). *)
Fixpoint re_match (p : pattern) (s : str) {struct p} : option str :=
  match p with
  | [] => Some s
  | One k :: p' =>
      match s with
      | c :: tl => if accepts k c then re_match p' tl else None
      | [] => None
      end
  | Star k :: p' =>
      (fix star (s : str) : option str :=
         match s with
         | c :: tl =>
             if accepts k c
             then match star tl with
                  | Some r => Some r
                  | None => re_match p' s
                  end
             else re_match p' s
         | [] => re_match p' s
         end) s
  | StarLazy k :: p' =>
      (fix star (s : str) : option str :=
         match re_match p' s with
         | Some r => Some r
         | None =>
             match s with
             | c :: tl => if accepts k c then star tl else None
             | [] => None
             end
         end) s
  end.

(** [re.sub(p, "", s)]: scanning from the left, every match is deleted
    and the scan goes on after it; a character at which no match starts
    is kept.  A match that consumes nothing deletes nothing, and the
    scan moves one character on. *)
Equations re_sub (p : pattern) (s : str) : str by wf (List.length s) lt :=
  re_sub p [] := [];
  re_sub p (c :: tl) with re_match p (c :: tl) := {
    | Some rest with lt_dec (List.length rest) (List.length (c :: tl)) := {
        | left _ := re_sub p rest;
        | right _ := c :: re_sub p tl };
    | None := c :: re_sub p tl }.

End Re.
Import Re.

(* ===================================================================== *)
(** * Parsed documents (BeautifulSoup) *)
(* ===================================================================== *)

Module Bs4.

(** A node of a parsed document: a string, or a tag with its name, its
    attributes (a dict: keys are unique) and its children in document
    order.  The [BeautifulSoup] object itself is the tag named
    ["[document]"] at the root. *)
Inductive node :=
| NavigableString (s : str)
| Tag (name : str) (attrs : list (str * str)) (contents : list node).

(** [tag.text]: all the strings below the tag, concatenated. *)
Fixpoint text (n : node) : str :=
  match n with
  | NavigableString s => s
  | Tag _ _ cs => flat_map text cs
  end.

(** [tag.descendants]: every node below the tag, in document order. *)
Fixpoint descendants (n : node) : list node :=
  match n with
  | NavigableString _ => []
  | Tag _ _ cs => flat_map (fun c => c :: descendants c) cs
  end.

Fixpoint lookup (k : str) (d : list (str * str)) : option str :=
  match d with
  | [] => None
  | (k', v) :: d' => if str_eqb k k' then Some v else lookup k d'
  end.

Definition is_tag_named (name : str) (n : node) : bool :=
  match n with
  | NavigableString _ => false
  | Tag name' _ _ => str_eqb name name'
  end.

(** The filter [attrs={k: v}] on a single-valued attribute. *)
Definition attr_is (k v : str) (n : node) : bool :=
  match n with
  | NavigableString _ => false
  | Tag _ attrs _ =>
      match lookup k attrs with
      | Some v' => str_eqb v v'
      | None => false
      end
  end.

(** The filter [class_=c]: the class attribute is a list of tokens, and
    [c] matches one of them or the whole value. *)
Definition has_class (c : str) (n : node) : bool :=
  match n with
  | NavigableString _ => false
  | Tag _ attrs _ =>
      match lookup (lit "class") attrs with
      | Some v => existsb (str_eqb c) (tokens v) || str_eqb c v
      | None => false
      end
  end.

Definition any_tag (_ : node) : bool := true.

(** [tag.find_all(name, <filter>)] *)
Definition find_all (name : str) (cond : node -> bool) (root : node)
  : list node :=
  filter (fun n => is_tag_named name n && cond n) (descendants root).

(** [tag.find(name, <filter>)]: the first result of [find_all], or
    [None]. *)
Definition find (name : str) (cond : node -> bool) (root : node)
  : option node :=
  hd_error (find_all name cond root).

(** [tag.<name>], as in [it.title]: [tag.find(name)]. *)
Definition getattr_tag (name : str) (root : node) : option node :=
  find name any_tag root.

End Bs4.
Import Bs4.

(* ===================================================================== *)
(** * Effects: requests, parses and exceptions *)
(* ===================================================================== *)

Module Eff.

Inductive exn :=
| ConnectionError             (* requests: the transport failed *)
| HTTPError (status_code : Z) (* Response.raise_for_status *)
| AttributeError.             (* attribute access on None *)

Inductive result (A : Type) :=
| Ok (a : A)
| Raise (e : exn).
Arguments Ok {A} a.
Arguments Raise {A} e.

(** What a run does to the outside, in order. *)
Inductive event :=
| Get (url : str) (headers : list (str * str))
| Parse (features : str) (markup : str).

(** A computation: its trace and its outcome. *)
Definition M (A : Type) : Type := (list event * result A)%type.

Definition ret {A} (a : A) : M A := ([], Ok a).

Definition raise {A} (e : exn) : M A := ([], Raise e).

Definition bind {A B} (m : M A) (f : A -> M B) : M B :=
  match m with
  | (t, Ok a) => let (t', r) := f a in (t ++ t', r)
  | (t, Raise e) => (t, Raise e)
  end.

Definition trace {A} (m : M A) : list event := fst m.
Definition outcome {A} (m : M A) : result A := snd m.

Record Response := {
  status_code : Z;
  body : str      (* Response.text *)
}.

(** What lies outside the notebook: the network, which answers a GET or
    fails, and the parsers of BeautifulSoup, selected by [features]. *)
Record World := {
  net : str -> list (str * str) -> option Response;
  parser : str -> str -> node
}.

End Eff.
Import Eff.

Declare Scope eff_scope.
Delimit Scope eff_scope with eff.
Notation "x <- c1 ;; c2" := (bind c1 (fun x => c2))
  (at level 61, c1 at next level, right associativity) : eff_scope.
Notation "c1 ;;; c2" := (bind c1 (fun _ => c2))
  (at level 61, right associativity) : eff_scope.
Open Scope eff_scope.

(** [requests.get(url, headers=headers)] *)
Definition requests_get (w : World) (url : str) (headers : list (str * str))
  : M Response :=
  ([Get url headers],
   match net w url headers with
   | Some r => Ok r
   | None => Raise ConnectionError
   end).

(** [Response.raise_for_status]: raises on a 4xx or 5xx status. *)
Definition raise_for_status (r : Response) : M unit :=
  if ((400 <=? status_code r) && (status_code r <? 600))%Z
  then raise (HTTPError (status_code r))
  else ret tt.

(** [BeautifulSoup(markup, features)] *)
Definition BeautifulSoup (w : World) (markup features : str) : M node :=
  ([Parse features markup], Ok (parser w features markup)).

(** [l[:n]] *)
Definition slice_to {A} (n : Z) (l : list A) : list A :=
  if (n <? 0)%Z
  then firstn (List.length l - Z.to_nat (- n)) l
  else firstn (Z.to_nat n) l.

(* ===================================================================== *)
(** * The notebook *)
(* ===================================================================== *)

Definition HEADERS : list (str * str) :=
  [(lit "User-Agent", lit "Mozilla/5.0 (Windows NT 10.0; Win64; x64)")].

(** A row of the news DataFrame (columns [titulo], [resumo]). *)
Record noticia := {
  titulo : str;
  resumo : str
}.

(** The dict [analyze_stock] returns. *)
Record snapshot := {
  ticker : str;
  nome : str;
  preco_atual : option str;
  noticias : list noticia
}.

Definition quote_url (ticker : str) : str :=
  lit "https://finance.yahoo.com/quote/" ++ ticker ++ lit "/".

Definition rss_url (ticker : str) : str :=
  lit "https://feeds.finance.yahoo.com/rss/2.0/headline"
  ++ lit "?s=" ++ ticker ++ lit "&region=US&lang=en-US".

Definition fetch_page (w : World) (ticker : str) : M node :=
  let url := quote_url ticker in
  let headers := [(lit "User-Agent", lit "Mozilla/5.0")] in
  response <- requests_get w url headers ;;
  soup <- BeautifulSoup w (body response) (lit "html.parser") ;;
  ret soup.

(** The pattern [r"\s*\(.*?\)"] of [clean_company_name]. *)
Definition name_pattern : pattern :=
  [Star Space; One (Lit chr_lparen); StarLazy Dot; One (Lit chr_rparen)].

Definition clean_company_name (name : str) : str :=
  let cleaned_name := re_sub name_pattern name in
  strip cleaned_name.

(** ["Nome não encontrado"] *)
Definition nome_nao_encontrado : str :=
  lit "Nome n" ++ [227%N] ++ lit "o encontrado".

Definition get_company_name (soup : node) : str :=
  let h1_tag := find (lit "h1") (has_class (lit "yf-xxbei9")) soup in
  match h1_tag with
  | Some h1 =>
      let raw_name := strip (text h1) in
      clean_company_name raw_name
  | None => nome_nao_encontrado
  end.

Definition get_current_price (soup : node) : option str :=
  let price_span :=
    find (lit "span") (attr_is (lit "data-testid") (lit "qsp-price")) soup in
  match price_span with
  | Some span => Some (strip (text span))
  | None => None
  end.

(** [x.text] where [x] may be [None]. *)
Definition text_of (x : option node) : M str :=
  match x with
  | Some t => ret (text t)
  | None => raise AttributeError
  end.

(** The dict built from one item of the feed. *)
Definition entry (it : node) : M noticia :=
  t <- text_of (getattr_tag (lit "title") it) ;;
  d <- text_of (getattr_tag (lit "description") it) ;;
  ret {| titulo := strip t; resumo := strip d |}.

(** The loop [for it in items: dados.append(...)]. *)
Fixpoint for_items (items : list node) (dados : list noticia)
  : M (list noticia) :=
  match items with
  | [] => ret dados
  | it :: rest =>
      row <- entry it ;;
      for_items rest (dados ++ [row])
  end.

Definition get_latest_news (w : World) (ticker : str) (n : Z)
  : M (list noticia) :=
  let rss_url := rss_url ticker in
  r <- requests_get w rss_url HEADERS ;;
  raise_for_status r ;;;
  xml <- BeautifulSoup w (body r) (lit "xml") ;;
  let items := slice_to n (find_all (lit "item") any_tag xml) in
  dados <- for_items items [] ;;
  ret dados.

Definition analyze_stock (w : World) (ticker : str) (n_news : Z)
  : M snapshot :=
  soup <- fetch_page w ticker ;;
  let nome := get_company_name soup in
  let preco_atual := get_current_price soup in
  noticias <- get_latest_news w ticker n_news ;;
  ret {| ticker := ticker;
         nome := nome;
         preco_atual := preco_atual;
         noticias := noticias |}.

(** [[analyze_stock(t, n_news=n) for t in tickers]] *)
Fixpoint todos (w : World) (tickers : list str) (n_news : Z)
  : M (list snapshot) :=
  match tickers with
  | [] => ret []
  | t :: rest =>
      r <- analyze_stock w t n_news ;;
      rs <- todos w rest n_news ;;
      ret (r :: rs)
  end.

(** The rows of [df_prices]. *)
Definition df_prices (todos : list snapshot)
  : list (str * str * option str) :=
  map (fun r => (ticker r, nome r, preco_atual r)) todos.

(** The cell that runs the pipeline over [tickers]: the table of prices
    and the list of records it is built from. *)
Definition run_tickers (w : World) (tickers : list str) (n_news : Z)
  : M (list (str * str * option str) * list snapshot) :=
  rs <- todos w tickers n_news ;;
  ret (df_prices rs, rs).

(* ===================================================================== *)
(** * Fixtures *)
(* ===================================================================== *)

Module Fixtures.

#[local] Open Scope string_scope.

Definition txt (s : string) : node := NavigableString (lit s).

Definition el (name : string) (attrs : list (string * string))
  (contents : list node) : node :=
  Tag (lit name) (map (fun kv => (lit (fst kv), lit (snd kv))) attrs)
    contents.

Definition document (contents : list node) : node :=
  el "[document]" [] contents.

(** The quote page of AAPL. *)
Definition aapl_page : node :=
  document
    [el "html" []
       [el "head" [] [el "title" [] [txt "Apple Inc. (AAPL) Stock Price"]];
        el "body" []
          [el "h1" [("class", "yf-xxbei9")] [txt "Apple Inc. (AAPL)"];
           el "div" [("class", "price")]
             [el "span" [("class", "base yf-ipw1h0");
                          ("data-testid", "qsp-price")]
                [txt "195.27 "]]]]].

(** A quote page with neither the name heading nor the price element. *)
Definition bare_page : node :=
  document
    [el "html" []
       [el "body" []
          [el "h1" [("class", "title")] [txt "Will be right back"];
           el "span" [("data-testid", "qsp-price-change")] [txt "+1.02"]]]].

Definition item (title description : string) : node :=
  el "item" []
    [el "description" [] [NavigableString (lit description ++ [10%N])%list];
     el "guid" [] [txt "id"];
     el "title" [] [NavigableString (32%N :: lit title ++ [32%N])%list]].

Definition feed (items : list node) : node :=
  document
    [el "rss" [("version", "2.0")]
       [el "channel" []
          (el "title" [] [txt "Yahoo! Finance: News"]
           :: el "description" [] [txt "Latest Financial News"]
           :: items)]].

Definition aapl_items : list node :=
  [item "Ex-Apple Engineers Behind $200M Xnor Deal"
        "Seattle-based ElastixAI, founded just months ago";
   item "Mark Zuckerberg Once Vented Why Apple AirPods"
        "Meta Platforms Inc. (NASDAQ:META) CEO Mark Zuckerberg";
   item "Dan Ives Fires Back"
        "On Friday, May 23, Wedbush analyst Dan Ives";
   item "Trump threatens Apple Inc. (AAPL) with New Tariffs"
        "President Trump has threatened Apple Inc.";
   item "Trump Trade: Trump considers 50% tariff on EU"
        "Catch up on the top industries and stocks"].

Definition row (title description : string) : noticia :=
  {| titulo := lit title; resumo := lit description |}.

Definition aapl_rows : list noticia :=
  [row "Ex-Apple Engineers Behind $200M Xnor Deal"
       "Seattle-based ElastixAI, founded just months ago";
   row "Mark Zuckerberg Once Vented Why Apple AirPods"
       "Meta Platforms Inc. (NASDAQ:META) CEO Mark Zuckerberg";
   row "Dan Ives Fires Back"
       "On Friday, May 23, Wedbush analyst Dan Ives";
   row "Trump threatens Apple Inc. (AAPL) with New Tariffs"
       "President Trump has threatened Apple Inc.";
   row "Trump Trade: Trump considers 50% tariff on EU"
       "Catch up on the top industries and stocks"].

(** A feed whose second item has no description. *)
Definition broken_items : list node :=
  [item "First" "One";
   el "item" [] [el "title" [] [txt "Second"]];
   item "Third" "Three"].

Definition ok (markup : string) : option Response :=
  Some {| status_code := 200; body := lit markup |}.

(** The canned network: AAPL has a page and a feed of five items, MSFT
    a page and a feed of two, NOPE a feed that answers 500, BROKEN a
    feed with a malformed item; any other request fails in transport
    (so does the page of BADTICKER). *)
Definition canned_net (url : str) (headers : list (str * str))
  : option Response :=
  if str_eqb url (quote_url (lit "AAPL")) then ok "<html>AAPL</html>"
  else if str_eqb url (rss_url (lit "AAPL")) then ok "<rss>AAPL</rss>"
  else if str_eqb url (quote_url (lit "MSFT")) then ok "<html>MSFT</html>"
  else if str_eqb url (rss_url (lit "MSFT")) then ok "<rss>MSFT</rss>"
  else if str_eqb url (quote_url (lit "NOPE")) then ok "<html>NOPE</html>"
  else if str_eqb url (rss_url (lit "NOPE"))
       then Some {| status_code := 500; body := lit "<rss>NOPE</rss>" |}
  else if str_eqb url (quote_url (lit "BROKEN")) then ok "<html>MSFT</html>"
  else if str_eqb url (rss_url (lit "BROKEN")) then ok "<rss>BROKEN</rss>"
  else None.

Definition canned_parser (features markup : str) : node :=
  if str_eqb markup (lit "<html>AAPL</html>") then aapl_page
  else if str_eqb markup (lit "<rss>AAPL</rss>") then feed aapl_items
  else if str_eqb markup (lit "<html>MSFT</html>") then bare_page
  else if str_eqb markup (lit "<rss>MSFT</rss>")
       then feed (firstn 2 aapl_items)
  else if str_eqb markup (lit "<rss>NOPE</rss>") then feed aapl_items
  else if str_eqb markup (lit "<rss>BROKEN</rss>") then feed broken_items
  else document [].

Definition canned : World :=
  {| net := canned_net; parser := canned_parser |}.

(** The same network, except that the feed of AAPL is answered with the
    status 304 and the same body. *)
Definition not_modified : World :=
  {| net := fun url headers =>
              if str_eqb url (rss_url (lit "AAPL"))
              then Some {| status_code := 304;
                           body := lit "<rss>AAPL</rss>" |}
              else canned_net url headers;
     parser := canned_parser |}.

End Fixtures.
Import Fixtures.

(* ===================================================================== *)
(** * The sentiment cells *)
(* ===================================================================== *)

(** The code points of a UTF-8 literal (one to three bytes per code
    point), for the texts of the notebook that are not ASCII. *)
Fixpoint decode_utf8 (bs : list N) : str :=
  match bs with
  | [] => []
  | b :: tl =>
      if (b <? 128)%N then b :: decode_utf8 tl
      else if (b <? 224)%N then
        match tl with
        | c :: tl' => ((b - 192) * 64 + (c - 128))%N :: decode_utf8 tl'
        | [] => []
        end
      else
        match tl with
        | c :: d :: tl' =>
            ((b - 224) * 4096 + (c - 128) * 64 + (d - 128))%N
              :: decode_utf8 tl'
        | _ => []
        end
  end.

Definition utf8 (s : string) : str :=
  decode_utf8 (map N_of_ascii (list_ascii_of_string s)).

Module Sentiment.

(** The keyword arguments of [client.chat.completions.create]. *)
Record ChatRequest := {
  model : str;
  messages : list (str * str);   (* role, content *)
  max_tokens : Z;
  temperature : Z
}.

(** The response: [message.content] of each choice, which may be
    [None]. *)
Record ChatCompletion := {
  choices : list (option str)
}.

(** The client passed to [sentimento_geral_noticias]: it answers a
    request or the call raises. *)
Definition Client := ChatRequest -> option ChatCompletion.

Inductive error :=
| Inner (e : exn)   (* an exception of the scraping functions' kinds *)
| APIError          (* the completion call failed *)
| IndexError.       (* choices[0] of an empty list *)

(** What a run of these cells does to the outside: what the scraping
    functions do, and the completion calls. *)
Inductive action :=
| Net (e : event)
| Chat (req : ChatRequest).

Inductive answer (A : Type) :=
| Done (a : A)
| Fail (e : error).
Arguments Done {A} a.
Arguments Fail {A} e.

Definition K (A : Type) : Type := (list action * answer A)%type.

Definition kret {A} (a : A) : K A := ([], Done a).

Definition kfail {A} (e : error) : K A := ([], Fail e).

Definition kbind {A B} (m : K A) (f : A -> K B) : K B :=
  match m with
  | (t, Done a) => let (t', r) := f a in (t ++ t', r)
  | (t, Fail e) => (t, Fail e)
  end.

(** A scraping computation run inside these cells. *)
Definition lift {A} (m : M A) : K A :=
  (map Net (trace m),
   match outcome m with
   | Ok a => Done a
   | Raise e => Fail (Inner e)
   end).

Definition actions {A} (m : K A) : list action := fst m.
Definition answer_of {A} (m : K A) : answer A := snd m.

End Sentiment.
Import Sentiment.

Notation "x <~ c1 ;; c2" := (kbind c1 (fun x => c2))
  (at level 61, c1 at next level, right associativity) : eff_scope.

(** [client.chat.completions.create(...)] *)
Definition chat_completions_create (client : Client) (req : ChatRequest)
  : K ChatCompletion :=
  ([Chat req],
   match client req with
   | Some r => Done r
   | None => Fail APIError
   end).

(** [l[0]] *)
Definition index0 {A} (l : list A) : K A :=
  match l with
  | x :: _ => kret x
  | [] => kfail IndexError
  end.

(** [x.strip()] where [x] may be [None]. *)
Definition strip_of (x : option str) : K str :=
  match x with
  | Some s => kret (strip s)
  | None => kfail (Inner AttributeError)
  end.

(** [f"{v}"] for a value that is a string or [None]. *)
Definition fstring (v : option str) : str :=
  match v with
  | Some s => s
  | None => lit "None"
  end.

(** [sep.join(xs)] *)
Fixpoint join (sep : str) (xs : list str) : str :=
  match xs with
  | [] => []
  | [x] => x
  | x :: rest => x ++ sep ++ join sep rest
  end.

(** The text appended to [textos] for one row. *)
Definition texto (row : noticia) : str :=
  utf8 "Título: " ++ titulo row ++ [chr_newline]
  ++ utf8 "Resumo: " ++ resumo row.

(** The local [prompt] of [sentimento_geral_noticias]. *)
Definition prompt (df_noticias : list noticia) (cotacao : option str) : str :=
  let textos := map texto df_noticias in
  let texto_completo := join [chr_newline; chr_newline] textos in
  utf8 "Considere as notícias e a cotação abaixo sobre uma empresa. "
  ++ utf8 "Analise o sentimento geral (positivo, negativo ou neutro) e explique brevemente o porquê. "
  ++ utf8 "Leve em conta tanto o conteúdo das notícias quanto o valor da cotação. "
  ++ utf8 "Responda em português." ++ [chr_newline; chr_newline]
  ++ utf8 "Cotação atual: " ++ fstring cotacao ++ [chr_newline; chr_newline]
  ++ texto_completo.

Definition default_deployment_name : str := lit "gpt-4o_MacielVidal_Chave1".

Definition sentimento_geral_noticias (df_noticias : list noticia)
  (cotacao : option str) (client : Client) (deployment_name : str)
  : K str :=
  let prompt := prompt df_noticias cotacao in
  response <~ chat_completions_create client
                {| model := deployment_name;
                   messages := [(lit "user", prompt)];
                   max_tokens := 150;
                   temperature := 0 |} ;;
  choice <~ index0 (choices response) ;;
  strip_of choice.

(** An element of [resultados]. *)
Record resultado := {
  res_ticker : str;
  res_nome : str;
  res_cotacao : option str;
  res_sentimento : str
}.

(** The body of the loop of the last cell, for one ticker. *)
Definition resultado_de (w : World) (client : Client) (ticker : str)
  : K resultado :=
  res <~ lift (analyze_stock w ticker 5) ;;
  sentimento <~ sentimento_geral_noticias (noticias res) (preco_atual res)
                  client default_deployment_name ;;
  kret {| res_ticker := ticker;
          res_nome := nome res;
          res_cotacao := preco_atual res;
          res_sentimento := sentimento |}.

(** What the loop of the last cell leaves: what it did, the list
    [resultados], and the exception that stopped it, if one did.
    [resultados] is a list of the notebook's module, changed in place by
    [append]: what was appended before an exception stays in it. *)
Record loop_run := {
  run_actions : list action;
  run_resultados : list resultado;
  run_error : option error
}.

(** The loop [for ticker in tickers: ... resultados.append(...)], started
    with the list holding [resultados0] (the cell starts it empty). *)
Fixpoint resultados (w : World) (client : Client) (tickers : list str)
  (resultados0 : list resultado) : loop_run :=
  match tickers with
  | [] => {| run_actions := [];
             run_resultados := resultados0;
             run_error := None |}
  | ticker :: rest =>
      match resultado_de w client ticker with
      | (tr, Done r) =>
          let run := resultados w client rest (resultados0 ++ [r]) in
          {| run_actions := tr ++ run_actions run;
             run_resultados := run_resultados run;
             run_error := run_error run |}
      | (tr, Fail e) =>
          {| run_actions := tr;
             run_resultados := resultados0;
             run_error := Some e |}
      end
  end.

Module SentimentFixtures.

(** A client that answers every request with two choices. *)
Definition canned_client : Client :=
  fun _ => Some {| choices := [Some (32%N :: lit "Sentimento geral: Neutro"
                                      ++ [chr_newline]);
                               Some (lit "other")] |}.

(** A client whose calls fail. *)
Definition failing_client : Client := fun _ => None.

(** A client that answers with no choice at all. *)
Definition mute_client : Client := fun _ => Some {| choices := [] |}.

(** A client whose call fails on a prompt without a price. *)
Definition picky_client : Client :=
  fun req =>
    if existsb (fun m => contains (utf8 "Cotação atual: None") (snd m))
         (messages req)
    then None
    else canned_client req.

End SentimentFixtures.
Import SentimentFixtures.

(* ===================================================================== *)
(** * Auxiliary notions used in the statements *)
(* ===================================================================== *)

(** [out] is [s] without its leading and trailing whitespace. *)
Definition trimmed_of (s out : str) : Prop :=
  exists l r,
    s = l ++ out ++ r
    /\ forallb isspace l = true
    /\ forallb isspace r = true
    /\ match out with c :: _ => isspace c = false | [] => True end
    /\ match rev out with c :: _ => isspace c = false | [] => True end.

(** The rest of [s] after the first [")"], when no line feed comes
    before it: what [.*?\)] consumes. *)
Fixpoint to_close (s : str) : option str :=
  match s with
  | [] => None
  | c :: tl =>
      if (c =? chr_rparen)%N then Some tl
      else if (c =? chr_newline)%N then None
      else to_close tl
  end.

(** The match of [name_pattern] at the start of [s], read off the
    pattern: the whitespace run, ["("], then [to_close]. *)
Definition group_at (s : str) : option str :=
  match lstrip s with
  | c :: tl => if (c =? chr_lparen)%N then to_close tl else None
  | [] => None
  end.

Definition mem (c : char) (s : str) : bool := existsb (N.eqb c) s.

(** A line feed comes before any [")"] in [s]. *)
Fixpoint cut_by_newline (s : str) : bool :=
  match s with
  | [] => false
  | c :: tl =>
      if (c =? chr_rparen)%N then false
      else if (c =? chr_newline)%N then true
      else cut_by_newline tl
  end.

(** Every ["("] of [b] is cut off from any [")"] by a line feed of [b]
    or of the whitespace [gp] that follows [b]. *)
Fixpoint no_group_before (b gp : str) : bool :=
  match b with
  | [] => true
  | c :: tl =>
      (if (c =? chr_lparen)%N then cut_by_newline (tl ++ gp) else true)
      && no_group_before tl gp
  end.

(** No ["("] of [s] is closed on its line. *)
Fixpoint no_group (s : str) : bool :=
  match s with
  | [] => true
  | c :: tl =>
      (if (c =? chr_lparen)%N
       then match to_close tl with Some _ => false | None => true end
       else true)
      && no_group tl
  end.

Fixpoint ends_nonspace (s : str) : bool :=
  match s with
  | [] => true
  | [c] => negb (isspace c)
  | _ :: tl => ends_nonspace tl
  end.

(** A parenthesized group in its context: the text [before] it, the
    whitespace [gap] right before its ["("], and what is [inside] the
    parentheses. *)
Record group := {
  before : str;
  gap : str;
  inside : str
}.

(** No ["("] of the text before a group is closed on its line, and that
    text does not end in whitespace (the gap is all of it); the group
    closes at its first [")"] and holds no line feed. *)
Definition group_ok (g : group) : bool :=
  no_group_before (before g) (gap g) && ends_nonspace (before g)
  && forallb isspace (gap g)
  && negb (mem chr_rparen (inside g)) && negb (mem chr_newline (inside g)).

(** The string made of the groups [gs], then [tail]. *)
Fixpoint assemble (gs : list group) (tail : str) : str :=
  match gs with
  | [] => tail
  | g :: gs' =>
      before g ++ gap g ++ chr_lparen :: inside g
        ++ chr_rparen :: assemble gs' tail
  end.

(** The same string without the groups and their gaps. *)
Fixpoint kept (gs : list group) (tail : str) : str :=
  match gs with
  | [] => tail
  | g :: gs' => before g ++ kept gs' tail
  end.

(** The scan of [re.sub] up to the first match: the text before it and
    the rest of the string, which starts with the match. *)
Fixpoint split_first (s : str) : option (str * str) :=
  match s with
  | [] => None
  | c :: tl =>
      match group_at (c :: tl) with
      | Some _ => Some ([], c :: tl)
      | None =>
          match split_first tl with
          | Some (b, rest) => Some (c :: b, rest)
          | None => None
          end
      end
  end.

(** No match starts at a position of [b] in [b ++ rest]. *)
Fixpoint no_match_in (b rest : str) : Prop :=
  match b with
  | [] => True
  | c :: b' => group_at (c :: b' ++ rest) = None /\ no_match_in b' rest
  end.

(** The tag [n] is absent from the document [soup]: no tag below [soup]
    has this name and passes this filter. *)
Definition absent (name : str) (cond : node -> bool) (soup : node) : Prop :=
  forall n, In n (descendants soup) ->
            is_tag_named name n && cond n = false.

(** The row an item of the feed gives, when it has both fields. *)
Definition entry_row (it : node) : option noticia :=
  match getattr_tag (lit "title") it,
        getattr_tag (lit "description") it with
  | Some t, Some d => Some {| titulo := strip (text t);
                              resumo := strip (text d) |}
  | _, _ => None
  end.

(** The item has a title and a description. *)
Definition has_fields (it : node) : bool :=
  match getattr_tag (lit "title") it,
        getattr_tag (lit "description") it with
  | Some _, Some _ => true
  | _, _ => false
  end.

(** The rows of a list of items, when every item has both fields. *)
Fixpoint rows_of (items : list node) : option (list noticia) :=
  match items with
  | [] => Some []
  | it :: rest =>
      match entry_row it, rows_of rest with
      | Some r, Some rs => Some (r :: rs)
      | _, _ => None
      end
  end.

(** The entries of the feed the news request of [ticker] returns: the
    [item] tags of the parsed body, in document order. *)
Definition feed_entries (w : World) (r : Response) : list node :=
  find_all (lit "item") any_tag (parser w (lit "xml") (body r)).

(** The values of the [User-Agent] header of the GET requests of a trace,
    in order. *)
Definition user_agents (tr : list event) : list (option str) :=
  flat_map (fun e => match e with
                     | Get _ headers => [lookup (lit "User-Agent") headers]
                     | Parse _ _ => []
                     end) tr.

(** C4 as stated: the page request and the feed request of a ticker carry
    the same [User-Agent] value. *)
Definition same_user_agent (w : World) (ticker : str) (n : Z) : Prop :=
  user_agents (trace (fetch_page w ticker))
  = user_agents (trace (get_latest_news w ticker n)).

(** [a] is [b] with some characters deleted. *)
Inductive subseq : str -> str -> Prop :=
| subseq_nil : subseq [] []
| subseq_keep (c : char) (a b : str) : subseq a b -> subseq (c :: a) (c :: b)
| subseq_drop (c : char) (a b : str) : subseq a b -> subseq a (c :: b).

(** [s] neither starts nor ends with whitespace. *)
Definition no_outer_space (s : str) : Prop :=
  match s with c :: _ => isspace c = false | [] => True end
  /\ match rev s with c :: _ => isspace c = false | [] => True end.

(** The URLs of the GET requests of a trace, in order. *)
Definition requested (tr : list event) : list str :=
  flat_map (fun e => match e with
                     | Get url _ => [url]
                     | Parse _ _ => []
                     end) tr.

(** [x] is the first tag below [soup], in document order, with this name
    that passes this filter. *)
Definition first_match (name : str) (cond : node -> bool) (soup x : node)
  : Prop :=
  exists pre post,
    descendants soup = pre ++ x :: post
    /\ (forall n, In n pre -> is_tag_named name n && cond n = false)
    /\ is_tag_named name x && cond x = true.

(** The completion requests of a run, in order. *)
Definition chats (tr : list action) : list ChatRequest :=
  flat_map (fun a => match a with
                     | Chat req => [req]
                     | Net _ => []
                     end) tr.

(** The request [sentimento_geral_noticias] sends for these news and this
    price. *)
Definition request_for (df_noticias : list noticia) (cotacao : option str)
  (deployment_name : str) : ChatRequest :=
  {| model := deployment_name;
     messages := [(lit "user", prompt df_noticias cotacao)];
     max_tokens := 150;
     temperature := 0 |}.

(* ===================================================================== *)
(** * Facts about strings *)
(* ===================================================================== *)

Section StripFacts.

Lemma forallb_rev (f : char -> bool) (l : str) :
  forallb f (rev l) = forallb f l.
Proof.
  induction l as [|c l IH]; [reflexivity|].
  simpl. rewrite forallb_app, IH. simpl.
  rewrite andb_true_r. apply andb_comm.
Qed.

Lemma lstrip_spaces_app (l s : str) :
  forallb isspace l = true -> lstrip (l ++ s) = lstrip s.
Proof.
  induction l as [|c l IH]; simpl; [reflexivity|].
  intros H. apply andb_true_iff in H as [Hc Hl].
  rewrite Hc. auto.
Qed.

Lemma lstrip_nonspace (c : char) (s : str) :
  isspace c = false -> lstrip (c :: s) = c :: s.
Proof. intros H. simpl. rewrite H. reflexivity. Qed.

Lemma lstrip_split (s : str) :
  exists l, s = l ++ lstrip s
            /\ forallb isspace l = true
            /\ match lstrip s with
               | c :: _ => isspace c = false
               | [] => True
               end.
Proof.
  induction s as [|c s (l & Hs & Hl & Hh)].
  - exists []. simpl. auto.
  - simpl. destruct (isspace c) eqn:Hc.
    + exists (c :: l). simpl. rewrite Hc, Hl. repeat split; auto.
      f_equal. exact Hs.
    + exists []. simpl. auto.
Qed.

Lemma rstrip_app_spaces (s r : str) :
  forallb isspace r = true -> rstrip (s ++ r) = rstrip s.
Proof.
  intros H. unfold rstrip. rewrite rev_app_distr.
  rewrite lstrip_spaces_app; [reflexivity|].
  rewrite forallb_rev. exact H.
Qed.

Lemma rstrip_last_nonspace (s : str) (c : char) :
  isspace c = false -> rstrip (s ++ [c]) = s ++ [c].
Proof.
  intros H. unfold rstrip. rewrite rev_app_distr. simpl rev at 2.
  simpl app. rewrite lstrip_nonspace by exact H.
  simpl. rewrite rev_involutive. reflexivity.
Qed.

Lemma rstrip_split (s : str) :
  exists r, s = rstrip s ++ r
            /\ forallb isspace r = true
            /\ match rev (rstrip s) with
               | c :: _ => isspace c = false
               | [] => True
               end.
Proof.
  destruct (lstrip_split (rev s)) as (l & Hs & Hl & Hh).
  exists (rev l). unfold rstrip. rewrite rev_involutive.
  repeat split.
  - rewrite <- rev_app_distr, <- Hs, rev_involutive. reflexivity.
  - rewrite forallb_rev. exact Hl.
  - exact Hh.
Qed.

(** [strip] removes exactly the whitespace at both ends. *)
Lemma strip_trimmed (s : str) : trimmed_of s (strip s).
Proof.
  destruct (lstrip_split s) as (l & Hs & Hl & Hh).
  destruct (rstrip_split (lstrip s)) as (r & Hr & Hrs & Hrh).
  exists l, r. unfold strip. repeat split; auto.
  - rewrite <- Hr. exact Hs.
  - destruct (rstrip (lstrip s)) as [|c t] eqn:E; [exact I|].
    rewrite Hr in Hh. simpl in Hh. exact Hh.
Qed.

(** A string with whitespace around a core that neither starts nor ends
    with whitespace strips to the core. *)
Lemma strip_padded (l r core : str) (a b : char) :
  forallb isspace l = true -> forallb isspace r = true ->
  isspace a = false -> isspace b = false ->
  strip (l ++ (a :: core ++ [b]) ++ r) = a :: core ++ [b].
Proof.
  intros Hl Hr Ha Hb. unfold strip.
  rewrite lstrip_spaces_app by exact Hl.
  change ((a :: core ++ [b]) ++ r) with (a :: (core ++ [b]) ++ r).
  rewrite lstrip_nonspace by exact Ha.
  change (a :: (core ++ [b]) ++ r) with ((a :: core ++ [b]) ++ r).
  rewrite rstrip_app_spaces by exact Hr.
  change (a :: core ++ [b]) with ((a :: core) ++ [b]).
  apply rstrip_last_nonspace. exact Hb.
Qed.

End StripFacts.

(* ===================================================================== *)
(** * Facts about the pattern of [clean_company_name] *)
(* ===================================================================== *)

Section PatternFacts.

Lemma re_match_star_cons (k : cls) (p : pattern) (c : char) (tl : str) :
  re_match (Star k :: p) (c :: tl) =
  if accepts k c
  then match re_match (Star k :: p) tl with
       | Some r => Some r
       | None => re_match p (c :: tl)
       end
  else re_match p (c :: tl).
Proof. reflexivity. Qed.

Lemma re_match_lazy (k : cls) (p : pattern) (s : str) :
  re_match (StarLazy k :: p) s =
  match re_match p s with
  | Some r => Some r
  | None =>
      match s with
      | c :: tl => if accepts k c then re_match (StarLazy k :: p) tl else None
      | [] => None
      end
  end.
Proof. destruct s; reflexivity. Qed.

Lemma re_match_to_close (s : str) :
  re_match [StarLazy Dot; One (Lit chr_rparen)] s = to_close s.
Proof.
  induction s as [|c tl IH]; [reflexivity|].
  rewrite re_match_lazy. simpl.
  destruct (c =? chr_rparen)%N; [reflexivity|].
  destruct (c =? chr_newline)%N; [reflexivity|]. exact IH.
Qed.

Lemma space_not_lparen (c : char) :
  isspace c = true -> (c =? chr_lparen)%N = false.
Proof.
  intros H. destruct (N.eqb_spec c chr_lparen) as [->|]; [|reflexivity].
  discriminate H.
Qed.

(** The backtracking match of the pattern is [group_at]. *)
Lemma re_match_name_pattern (s : str) :
  re_match name_pattern s = group_at s.
Proof.
  unfold name_pattern, group_at.
  induction s as [|c tl IH]; [reflexivity|].
  rewrite re_match_star_cons. simpl accepts. simpl lstrip.
  destruct (isspace c) eqn:Hc.
  - rewrite IH.
    destruct (lstrip tl) as [|d tl'] eqn:E.
    + simpl. rewrite (space_not_lparen _ Hc). reflexivity.
    + destruct (d =? chr_lparen)%N eqn:Hd.
      * destruct (to_close tl'); [reflexivity|].
        simpl. rewrite (space_not_lparen _ Hc). reflexivity.
      * simpl. rewrite (space_not_lparen _ Hc). reflexivity.
  - change (re_match [One (Lit chr_lparen); StarLazy Dot; One (Lit chr_rparen)] (c :: tl))
      with (if (c =? chr_lparen)%N
            then re_match [StarLazy Dot; One (Lit chr_rparen)] tl
            else None).
    rewrite re_match_to_close. reflexivity.
Qed.

Lemma to_close_length (s rest : str) :
  to_close s = Some rest -> List.length rest < List.length s.
Proof.
  revert rest. induction s as [|c tl IH]; simpl; [discriminate|].
  intros rest.
  destruct (c =? chr_rparen)%N.
  - intros [= ->]. lia.
  - destruct (c =? chr_newline)%N; [discriminate|].
    intros H. apply IH in H. lia.
Qed.

Lemma lstrip_length (s : str) : List.length (lstrip s) <= List.length s.
Proof.
  induction s as [|c tl IH]; simpl; [lia|].
  destruct (isspace c); simpl; lia.
Qed.

(** A match of the pattern consumes at least its two parentheses. *)
Lemma group_at_length (s rest : str) :
  group_at s = Some rest -> List.length rest + 2 <= List.length s.
Proof.
  unfold group_at. intros H.
  pose proof (lstrip_length s) as Hl.
  destruct (lstrip s) as [|c tl]; [discriminate|].
  destruct (c =? chr_lparen)%N; [|discriminate].
  apply to_close_length in H. simpl in Hl. lia.
Qed.

Lemma re_sub_keep (c : char) (tl : str) :
  group_at (c :: tl) = None ->
  re_sub name_pattern (c :: tl) = c :: re_sub name_pattern tl.
Proof.
  intros H. simp re_sub. rewrite re_match_name_pattern, H.
  reflexivity.
Qed.

Lemma re_sub_delete (c : char) (tl rest : str) :
  group_at (c :: tl) = Some rest ->
  re_sub name_pattern (c :: tl) = re_sub name_pattern rest.
Proof.
  intros H. simp re_sub. rewrite re_match_name_pattern, H.
  apply group_at_length in H. cbn [re_sub_unfold_clause_2].
  destruct (lt_dec _ _) as [L|L]; [reflexivity|].
  simpl in *. lia.
Qed.

End PatternFacts.

Section GroupFacts.

Lemma to_close_inside (inside x : str) :
  mem chr_rparen inside = false -> mem chr_newline inside = false ->
  to_close (inside ++ chr_rparen :: x) = Some x.
Proof.
  unfold mem. induction inside as [|c tl IH]; cbn [existsb app to_close].
  - rewrite N.eqb_refl. reflexivity.
  - intros H1 H2.
    apply orb_false_iff in H1 as [H1 H1'].
    apply orb_false_iff in H2 as [H2 H2'].
    rewrite N.eqb_sym in H1. rewrite N.eqb_sym in H2.
    rewrite H1, H2. auto.
Qed.

Lemma to_close_cut (s x : str) :
  cut_by_newline s = true -> to_close (s ++ x) = None.
Proof.
  induction s as [|c tl IH]; simpl; [discriminate|].
  destruct (c =? chr_rparen)%N; [discriminate|].
  destruct (c =? chr_newline)%N; auto.
Qed.

Lemma group_at_space (c : char) (s : str) :
  isspace c = true -> group_at (c :: s) = group_at s.
Proof. intros H. unfold group_at. simpl. rewrite H. reflexivity. Qed.

Lemma group_at_nonspace (c : char) (s : str) :
  isspace c = false ->
  group_at (c :: s) = if (c =? chr_lparen)%N then to_close s else None.
Proof. intros H. unfold group_at. simpl. rewrite H. reflexivity. Qed.

(** No match starts inside the text before a group. *)
Lemma group_at_before (b gp x : str) :
  b <> [] -> no_group_before b gp = true -> ends_nonspace b = true ->
  group_at (b ++ gp ++ x) = None.
Proof.
  induction b as [|c b IH]; [congruence|].
  intros _ Hn He. simpl in Hn. apply andb_true_iff in Hn as [Hc Hn].
  simpl app. destruct (isspace c) eqn:Hs.
  - rewrite group_at_space by exact Hs.
    destruct b as [|d b'].
    + simpl in He. rewrite Hs in He. discriminate.
    + apply IH; [discriminate|exact Hn|exact He].
  - rewrite group_at_nonspace by exact Hs.
    destruct (c =? chr_lparen)%N; [|reflexivity].
    rewrite app_assoc. apply to_close_cut. exact Hc.
Qed.

Lemma re_sub_before (b gp x : str) :
  no_group_before b gp = true -> ends_nonspace b = true ->
  re_sub name_pattern (b ++ gp ++ x) = b ++ re_sub name_pattern (gp ++ x).
Proof.
  induction b as [|c b IH]; [reflexivity|].
  intros Hn He.
  change ((c :: b) ++ gp ++ x) with (c :: b ++ gp ++ x).
  rewrite re_sub_keep.
  - simpl. f_equal.
    simpl in Hn. apply andb_true_iff in Hn as [_ Hn].
    destruct b as [|d b']; [reflexivity|].
    apply IH; [exact Hn|]. exact He.
  - change (c :: b ++ gp ++ x) with ((c :: b) ++ gp ++ x).
    apply group_at_before; [discriminate|exact Hn|exact He].
Qed.

Lemma group_at_group (gp ins x : str) :
  forallb isspace gp = true ->
  mem chr_rparen ins = false -> mem chr_newline ins = false ->
  group_at (gp ++ chr_lparen :: ins ++ chr_rparen :: x) = Some x.
Proof.
  intros Hg H1 H2. unfold group_at.
  rewrite lstrip_spaces_app by exact Hg.
  rewrite lstrip_nonspace by reflexivity.
  rewrite N.eqb_refl. apply to_close_inside; assumption.
Qed.

Lemma re_sub_group (gp ins x : str) :
  forallb isspace gp = true ->
  mem chr_rparen ins = false -> mem chr_newline ins = false ->
  re_sub name_pattern (gp ++ chr_lparen :: ins ++ chr_rparen :: x)
  = re_sub name_pattern x.
Proof.
  intros Hg H1 H2.
  pose proof (group_at_group gp ins x Hg H1 H2) as H.
  destruct (gp ++ chr_lparen :: ins ++ chr_rparen :: x) as [|c tl] eqn:E.
  - destruct gp; discriminate E.
  - apply re_sub_delete. exact H.
Qed.

Lemma group_at_no_group (s : str) :
  no_group s = true -> group_at s = None.
Proof.
  induction s as [|c tl IH]; [reflexivity|].
  simpl. intros H. apply andb_true_iff in H as [Hc Hn].
  destruct (isspace c) eqn:Hs.
  - rewrite group_at_space by exact Hs. auto.
  - rewrite group_at_nonspace by exact Hs.
    destruct (c =? chr_lparen)%N; [|reflexivity].
    destruct (to_close tl); [discriminate|reflexivity].
Qed.

Lemma re_sub_no_group (s : str) :
  no_group s = true -> re_sub name_pattern s = s.
Proof.
  induction s as [|c tl IH]; [reflexivity|].
  intros H. rewrite re_sub_keep by (apply group_at_no_group; exact H).
  simpl in H. apply andb_true_iff in H as [_ H].
  f_equal. auto.
Qed.

Lemma re_sub_assemble (gs : list group) (tail : str) :
  forallb group_ok gs = true -> no_group tail = true ->
  re_sub name_pattern (assemble gs tail) = kept gs tail.
Proof.
  intros Hgs Ht. induction gs as [|g gs IH]; simpl.
  - apply re_sub_no_group. exact Ht.
  - simpl in Hgs. apply andb_true_iff in Hgs as [Hg Hgs].
    unfold group_ok in Hg.
    repeat (apply andb_true_iff in Hg as [Hg ?]).
    rewrite re_sub_before by assumption.
    rewrite re_sub_group;
      [ | assumption | apply negb_true_iff; assumption
        | apply negb_true_iff; assumption ].
    f_equal. auto.
Qed.

(** ** Every string is made of groups *)

Lemma to_close_split (s x : str) :
  to_close s = Some x ->
  exists ins, s = ins ++ chr_rparen :: x
              /\ mem chr_rparen ins = false
              /\ mem chr_newline ins = false.
Proof.
  revert x. induction s as [|c tl IH]; simpl; [discriminate|].
  intros x. destruct (N.eqb_spec c chr_rparen) as [->|Hr].
  - intros [= ->]. exists []. auto.
  - destruct (N.eqb_spec c chr_newline) as [->|Hn]; [discriminate|].
    intros H. destruct (IH _ H) as (ins & -> & H1 & H2).
    exists (c :: ins). unfold mem in *. cbn [existsb app].
    rewrite H1, H2, !orb_false_r.
    repeat split; apply N.eqb_neq; congruence.
Qed.

Lemma group_at_split (s x : str) :
  group_at s = Some x ->
  exists gp ins, s = gp ++ chr_lparen :: ins ++ chr_rparen :: x
                 /\ forallb isspace gp = true
                 /\ mem chr_rparen ins = false
                 /\ mem chr_newline ins = false.
Proof.
  unfold group_at. intros H.
  destruct (lstrip_split s) as (gp & Hs & Hgp & _).
  destruct (lstrip s) as [|c tl]; [discriminate|].
  destruct (N.eqb_spec c chr_lparen) as [->|]; [|discriminate].
  destruct (to_close_split _ _ H) as (ins & -> & H1 & H2).
  exists gp, ins. auto.
Qed.

Lemma to_close_app_none (u v : str) :
  to_close (u ++ v) = None -> to_close v <> None ->
  cut_by_newline u = true.
Proof.
  intros H Hv. induction u as [|c u IH]; simpl in *; [congruence|].
  destruct (c =? chr_rparen)%N; [discriminate|].
  destruct (c =? chr_newline)%N; auto.
Qed.

Lemma split_first_none (s : str) :
  split_first s = None -> no_group s = true.
Proof.
  induction s as [|c tl IH]; [reflexivity|].
  simpl split_first. destruct (group_at (c :: tl)) eqn:E; [discriminate|].
  destruct (split_first tl) as [[b rest]|]; [discriminate|].
  intros _. simpl. rewrite IH by reflexivity. rewrite andb_true_r.
  destruct (N.eqb_spec c chr_lparen) as [->|]; [|reflexivity].
  rewrite group_at_nonspace in E by reflexivity. simpl in E.
  rewrite E. reflexivity.
Qed.

Lemma split_first_some (s b rest : str) :
  split_first s = Some (b, rest) ->
  s = b ++ rest
  /\ (exists x, group_at rest = Some x)
  /\ no_match_in b rest.
Proof.
  revert b rest. induction s as [|c tl IH]; [discriminate|].
  intros b rest. simpl split_first.
  destruct (group_at (c :: tl)) as [x|] eqn:E.
  - intros [= <- <-]. simpl. eauto.
  - destruct (split_first tl) as [[b' rest']|]; [|discriminate].
    intros [= <- <-].
    destruct (IH b' rest' eq_refl) as (-> & Hx & Hb).
    simpl. auto.
Qed.

Lemma no_match_ends_nonspace (b rest : str) (x : str) :
  group_at rest = Some x -> no_match_in b rest -> ends_nonspace b = true.
Proof.
  intros Hx. induction b as [|c b IH]; [reflexivity|].
  intros [Hc Hb]. destruct b as [|d b'].
  - simpl in *. destruct (isspace c) eqn:Hs; [|reflexivity].
    rewrite group_at_space in Hc by exact Hs. congruence.
  - apply IH. exact Hb.
Qed.

Lemma no_match_no_group_before (b gp ins x : str) :
  forallb isspace gp = true ->
  mem chr_rparen ins = false -> mem chr_newline ins = false ->
  no_match_in b (gp ++ chr_lparen :: ins ++ chr_rparen :: x) ->
  no_group_before b gp = true.
Proof.
  intros Hgp H1 H2. induction b as [|c b IH]; [reflexivity|].
  intros [Hc Hb]. simpl. rewrite (IH Hb), andb_true_r.
  destruct (N.eqb_spec c chr_lparen) as [->|]; [|reflexivity].
  rewrite group_at_nonspace in Hc by reflexivity. simpl in Hc.
  rewrite app_assoc in Hc.
  apply (to_close_app_none _ _ Hc).
  simpl. rewrite to_close_inside by assumption. discriminate.
Qed.

(** Every string is a sequence of groups followed by a tail in which no
    group closes on its line. *)
Lemma every_name_decomposes (s : str) :
  exists gs tail,
    s = assemble gs tail
    /\ forallb group_ok gs = true
    /\ no_group tail = true.
Proof.
  remember (List.length s) as k eqn:Hk.
  revert s Hk. induction k as [k IH] using lt_wf_ind. intros s Hk.
  destruct (split_first s) as [[b rest]|] eqn:E.
  - destruct (split_first_some _ _ _ E) as (Hs & [x Hx] & Hb).
    destruct (group_at_split _ _ Hx) as (gp & ins & Hrest & Hgp & H1 & H2).
    assert (List.length x < k) as Hlt.
    { apply group_at_length in Hx. subst s k. rewrite length_app. lia. }
    destruct (IH _ Hlt x eq_refl) as (gs & tail & Hxs & Hgs & Ht).
    exists ({| before := b; gap := gp; inside := ins |} :: gs), tail.
    split; [|split; [|exact Ht]].
    + simpl. rewrite <- Hxs, <- Hrest. exact Hs.
    + simpl. rewrite Hgs, andb_true_r. unfold group_ok. simpl.
      rewrite Hrest in Hb.
      rewrite (no_match_no_group_before _ _ _ _ Hgp H1 H2 Hb).
      rewrite Hrest in Hx.
      rewrite (no_match_ends_nonspace _ _ _ Hx Hb).
      rewrite Hgp, H1, H2. reflexivity.
  - exists [], s. simpl. repeat split.
    apply split_first_none. exact E.
Qed.

End GroupFacts.

(* ===================================================================== *)
(** * Facts about documents *)
(* ===================================================================== *)

Section DocumentFacts.

Lemma filter_none {A} (f : A -> bool) (l : list A) :
  (forall x, In x l -> f x = false) -> filter f l = [].
Proof.
  induction l as [|a l IH]; [reflexivity|].
  intros H. simpl. rewrite (H a (or_introl eq_refl)).
  apply IH. intros x Hx. apply H. right. exact Hx.
Qed.

Lemma find_absent (name : str) (cond : node -> bool) (soup : node) :
  absent name cond soup -> find name cond soup = None.
Proof.
  intros H. unfold find, find_all.
  rewrite filter_none by exact H. reflexivity.
Qed.

Lemma find_none_absent (name : str) (cond : node -> bool) (soup : node) :
  find name cond soup = None -> absent name cond soup.
Proof.
  unfold find, find_all, absent. intros H n Hn.
  destruct (is_tag_named name n && cond n) eqn:E; [|reflexivity].
  assert (In n (filter (fun n => is_tag_named name n && cond n)
                  (descendants soup))) as Hf
      by (apply filter_In; auto).
  destruct (filter _ (descendants soup)); [destruct Hf|discriminate].
Qed.

(** Absence can be checked by a scan of the document. *)
Lemma absent_scan (name : str) (cond : node -> bool) (soup : node) :
  forallb (fun n => negb (is_tag_named name n && cond n))
    (descendants soup) = true ->
  absent name cond soup.
Proof.
  intros H n Hn. rewrite forallb_forall in H.
  apply negb_true_iff. apply H. exact Hn.
Qed.

End DocumentFacts.

(* ===================================================================== *)
(** * Facts about the effects of the notebook's functions *)
(* ===================================================================== *)

Section EffectFacts.

Context (w : World).

Lemma bind_ok {A B} (t : list event) (a : A) (f : A -> M B) :
  bind (t, Ok a) f = (t ++ trace (f a), outcome (f a)).
Proof. unfold bind, trace, outcome. destruct (f a). reflexivity. Qed.

Lemma entry_run (it : node) :
  entry it = ([], match entry_row it with
                  | Some r => Ok r
                  | None => Raise AttributeError
                  end).
Proof.
  unfold entry, entry_row.
  destruct (getattr_tag (lit "title") it); [|reflexivity].
  destruct (getattr_tag (lit "description") it); reflexivity.
Qed.

Lemma for_items_run (items : list node) (dados : list noticia) :
  for_items items dados
  = ([], match rows_of items with
         | Some rows => Ok (dados ++ rows)
         | None => Raise AttributeError
         end).
Proof.
  revert dados. induction items as [|it rest IH]; intros dados.
  - simpl. rewrite app_nil_r. reflexivity.
  - simpl. rewrite entry_run.
    destruct (entry_row it) as [r|]; [|reflexivity].
    rewrite bind_ok, IH. unfold trace, outcome. simpl.
    destruct (rows_of rest); [|reflexivity].
    rewrite <- app_assoc. reflexivity.
Qed.

Lemma rows_of_some (items : list node) :
  forallb has_fields items = true ->
  exists rows,
    rows_of items = Some rows
    /\ Forall2 (fun it row => entry_row it = Some row) items rows.
Proof.
  induction items as [|it rest IH]; simpl.
  - exists []. split; [reflexivity|constructor].
  - intros H. apply andb_true_iff in H as [Hit Hrest].
    destruct (IH Hrest) as (rows & -> & HF).
    unfold has_fields in Hit.
    destruct (entry_row it) as [r|] eqn:E.
    + exists (r :: rows). split; [reflexivity|]. constructor; assumption.
    + unfold entry_row in E.
      destruct (getattr_tag (lit "title") it); [|discriminate].
      destruct (getattr_tag (lit "description") it); discriminate.
Qed.

Lemma rows_of_none (items : list node) (it : node) :
  In it items -> has_fields it = false -> rows_of items = None.
Proof.
  intros Hin Hf. induction items as [|x rest IH]; [destruct Hin|].
  simpl. destruct Hin as [->|Hin].
  - unfold has_fields in Hf. unfold entry_row.
    destruct (getattr_tag (lit "title") it); [|reflexivity].
    destruct (getattr_tag (lit "description") it);
      [discriminate|reflexivity].
  - rewrite (IH Hin). destruct (entry_row x); reflexivity.
Qed.

Lemma raise_for_status_ok (r : Response) :
  ~ (400 <= status_code r < 600)%Z -> raise_for_status r = ret tt.
Proof.
  intros H. unfold raise_for_status.
  destruct (400 <=? status_code r)%Z eqn:E1;
    destruct (status_code r <? 600)%Z eqn:E2; try reflexivity.
  exfalso. apply H. split; [apply Z.leb_le|apply Z.ltb_lt]; assumption.
Qed.

Lemma raise_for_status_error (r : Response) :
  (400 <= status_code r < 600)%Z ->
  raise_for_status r = raise (HTTPError (status_code r)).
Proof.
  intros [H1 H2]. unfold raise_for_status.
  apply Z.leb_le in H1. apply Z.ltb_lt in H2. rewrite H1, H2.
  reflexivity.
Qed.

(** A run of [get_latest_news] whose request is answered with a status
    that does not raise. *)
Lemma get_latest_news_run (ticker : str) (n : Z) (r : Response) :
  net w (rss_url ticker) HEADERS = Some r ->
  ~ (400 <= status_code r < 600)%Z ->
  get_latest_news w ticker n
  = ([Get (rss_url ticker) HEADERS; Parse (lit "xml") (body r)],
     match rows_of (slice_to n (feed_entries w r)) with
     | Some rows => Ok rows
     | None => Raise AttributeError
     end).
Proof.
  intros Hnet Hst. unfold get_latest_news, requests_get.
  rewrite Hnet, bind_ok, (raise_for_status_ok _ Hst).
  unfold ret at 1. rewrite bind_ok. unfold BeautifulSoup.
  rewrite bind_ok, for_items_run. unfold feed_entries.
  destruct (rows_of _); reflexivity.
Qed.

Lemma fetch_page_run (ticker : str) (r : Response) :
  net w (quote_url ticker) [(lit "User-Agent", lit "Mozilla/5.0")] = Some r ->
  fetch_page w ticker
  = ([Get (quote_url ticker) [(lit "User-Agent", lit "Mozilla/5.0")];
      Parse (lit "html.parser") (body r)],
     Ok (parser w (lit "html.parser") (body r))).
Proof.
  intros Hnet. unfold fetch_page, requests_get. rewrite Hnet.
  reflexivity.
Qed.

Lemma todos_raise (n : Z) (pre post : list str) (t : str) (e : exn) :
  Forall (fun t' => exists r, outcome (analyze_stock w t' n) = Ok r) pre ->
  outcome (analyze_stock w t n) = Raise e ->
  todos w (pre ++ t :: post) n
  = (flat_map (fun t' => trace (analyze_stock w t' n)) (pre ++ [t]),
     Raise e).
Proof.
  intros Hpre Ht. induction Hpre as [|t0 pre [r0 H0] _ IH]; simpl.
  - destruct (analyze_stock w t n) as [tr o]. simpl in Ht. subst o.
    simpl. rewrite app_nil_r. reflexivity.
  - destruct (analyze_stock w t0 n) as [tr0 o0]. simpl in H0. subst o0.
    rewrite bind_ok, IH. reflexivity.
Qed.

Lemma todos_ok (n : Z) (tickers : list str) (rs : list snapshot) :
  Forall2 (fun t r => outcome (analyze_stock w t n) = Ok r) tickers rs ->
  todos w tickers n
  = (flat_map (fun t => trace (analyze_stock w t n)) tickers, Ok rs).
Proof.
  induction 1 as [|t r tickers rs H _ IH]; [reflexivity|].
  simpl. destruct (analyze_stock w t n) as [tr o]. simpl in H. subst o.
  rewrite bind_ok, IH. unfold trace, outcome. simpl.
  rewrite app_nil_r. reflexivity.
Qed.

End EffectFacts.

(* ===================================================================== *)
(** * [clean_company_name] *)
(* ===================================================================== *)

(** What [clean_company_name] does to a string given as groups. *)
Lemma clean_company_name_assembled (gs : list group) (tail : str) :
  forallb group_ok gs = true -> no_group tail = true ->
  clean_company_name (assemble gs tail) = strip (kept gs tail).
Proof.
  intros Hgs Ht. unfold clean_company_name.
  rewrite re_sub_assemble by assumption. reflexivity.
Qed.

(** C10, as the code has it.  Every input string is a sequence of
    parenthesized groups that close on their line (from a ["("] to the
    first [")"] after it, no line feed in between), each with the
    whitespace right before it, between stretches of text in which no
    ["("] is closed on its line; [clean_company_name] deletes every such
    group together with the whitespace before it, wherever it stands,
    keeps the text between them, and trims the result. *)
Theorem clean_company_name_groups (name : str) :
  exists gs tail,
    name = assemble gs tail
    /\ forallb group_ok gs = true
    /\ no_group tail = true
    /\ clean_company_name name = strip (kept gs tail).
Proof.
  destruct (every_name_decomposes name) as (gs & tail & Hs & Hgs & Ht).
  exists gs, tail. repeat split; try assumption.
  rewrite Hs at 1. apply clean_company_name_assembled; assumption.
Qed.

(** ["Alpha (A) Beta (B)"] yields ["Alpha Beta"]. *)
Example clean_alpha :
  clean_company_name (lit "Alpha (A) Beta (B)") = lit "Alpha Beta".
Proof.
  exact (clean_company_name_assembled
           [ {| before := lit "Alpha"; gap := lit " "; inside := lit "A" |};
             {| before := lit " Beta"; gap := lit " "; inside := lit "B" |} ]
           [] eq_refl eq_refl).
Qed.

(** C10, as stated, fails: a parenthesized group that holds a line feed
    is not removed.  ["Alpha (A\nB) Beta"] comes back unchanged, its
    group still in it. *)
Lemma clean_company_name_keeps_broken_group :
  let grp := lit "(A" ++ [chr_newline] ++ lit "B)" in
  let name := lit "Alpha " ++ grp ++ lit " Beta" in
  contains grp name = true
  /\ clean_company_name name = name
  /\ contains grp (clean_company_name name) = true
  /\ clean_company_name name <> lit "Alpha Beta".
Proof.
  vm_compute. repeat split; discriminate.
Qed.

(* ===================================================================== *)
(** * The field extractors *)
(* ===================================================================== *)

(** C5.  On every page whose name heading (the first [h1] of class
    [yf-xxbei9]) reads ["Apple Inc. (AAPL)"], with any whitespace around
    it, [get_company_name] returns exactly ["Apple Inc."]: the
    parenthesized suffix is removed and the result is trimmed. *)
Theorem get_company_name_apple (soup h1 : node) (l r : str) :
  find (lit "h1") (has_class (lit "yf-xxbei9")) soup = Some h1 ->
  text h1 = l ++ lit "Apple Inc. (AAPL)" ++ r ->
  forallb isspace l = true -> forallb isspace r = true ->
  get_company_name soup = lit "Apple Inc.".
Proof.
  intros Hfind Htext Hl Hr. unfold get_company_name.
  rewrite Hfind, Htext.
  change (lit "Apple Inc. (AAPL)")
    with (65%N :: lit "pple Inc. (AAPL" ++ [chr_rparen]).
  rewrite strip_padded by (assumption || reflexivity).
  reflexivity.
Qed.

Lemma get_company_name_apple_witness :
  get_company_name aapl_page = lit "Apple Inc.".
Proof.
  apply (get_company_name_apple aapl_page
           (el "h1" [("class", "yf-xxbei9")%string]
              [txt "Apple Inc. (AAPL)"])
           [] []); reflexivity.
Defined.

(** C6.  On every page without the name heading, [get_company_name]
    returns the fixed string ["Nome não encontrado"]; being a total
    function to strings, it has no other outcome. *)
Theorem get_company_name_absent (soup : node) :
  absent (lit "h1") (has_class (lit "yf-xxbei9")) soup ->
  get_company_name soup = nome_nao_encontrado.
Proof.
  intros H. unfold get_company_name.
  rewrite (find_absent _ _ _ H). reflexivity.
Qed.

Lemma get_company_name_absent_witness :
  get_company_name bare_page = nome_nao_encontrado.
Proof.
  apply get_company_name_absent. apply absent_scan. reflexivity.
Defined.

(** C7.  On every page without the price element, [get_current_price]
    returns [None]: not a string at all, so neither the empty string nor
    the sentinel of the name. *)
Theorem get_current_price_absent (soup : node) :
  absent (lit "span") (attr_is (lit "data-testid") (lit "qsp-price")) soup ->
  get_current_price soup = None
  /\ get_current_price soup <> Some []
  /\ get_current_price soup <> Some nome_nao_encontrado
  /\ forall s : str, get_current_price soup <> Some s.
Proof.
  intros H. unfold get_current_price.
  rewrite (find_absent _ _ _ H). repeat split; discriminate.
Qed.

Lemma get_current_price_absent_witness :
  get_current_price bare_page = None
  /\ get_current_price bare_page <> Some []
  /\ get_current_price bare_page <> Some nome_nao_encontrado
  /\ forall s : str, get_current_price bare_page <> Some s.
Proof.
  apply get_current_price_absent. apply absent_scan. reflexivity.
Defined.

(** X10.  The price is [None] only when the element is absent: a price
    element that is present, even an empty one, gives a string. *)
Lemma get_current_price_none (soup : node) :
  get_current_price soup = None ->
  absent (lit "span") (attr_is (lit "data-testid") (lit "qsp-price")) soup.
Proof.
  unfold get_current_price. intros H. apply find_none_absent.
  destruct (find _ _ soup); [discriminate|reflexivity].
Qed.

(* ===================================================================== *)
(** * [get_latest_news] *)
(* ===================================================================== *)

Lemma Forall2_nth_error_r {A B} (P : A -> B -> Prop) (l : list A)
  (l' : list B) (i : nat) (b : B) :
  Forall2 P l l' -> nth_error l' i = Some b ->
  exists a, nth_error l i = Some a /\ P a b.
Proof.
  intros H. revert i. induction H as [|x y l l' Hxy _ IH]; intros i Hi.
  - destruct i; discriminate.
  - destruct i as [|i]; simpl in Hi.
    + injection Hi as ->. exists x. auto.
    + apply IH. exact Hi.
Qed.

Lemma slice_to_positive {A} (n : Z) (l : list A) :
  (0 <= n)%Z -> slice_to n l = firstn (Z.to_nat n) l.
Proof.
  intros H. unfold slice_to.
  destruct (n <? 0)%Z eqn:E; [|reflexivity].
  apply Z.ltb_lt in E. lia.
Qed.

(** C2.  When the feed request is answered without an error status and
    the first [n] entries each have a title and a description, then for
    every positive [n], [get_latest_news] returns exactly
    [min n (number of entries)] rows; row [i] is made from entry [i] of
    the feed, its title and its description each without their leading
    and trailing whitespace. *)
Theorem get_latest_news_rows (w : World) (t : str) (n : Z) (r : Response) :
  (0 < n)%Z ->
  net w (rss_url t) HEADERS = Some r ->
  ~ (400 <= status_code r < 600)%Z ->
  forallb has_fields (firstn (Z.to_nat n) (feed_entries w r)) = true ->
  exists rows,
    outcome (get_latest_news w t n) = Ok rows
    /\ Z.of_nat (List.length rows)
       = Z.min n (Z.of_nat (List.length (feed_entries w r)))
    /\ forall i row,
        nth_error rows i = Some row ->
        exists it title description,
          nth_error (feed_entries w r) i = Some it
          /\ getattr_tag (lit "title") it = Some title
          /\ getattr_tag (lit "description") it = Some description
          /\ trimmed_of (text title) (titulo row)
          /\ trimmed_of (text description) (resumo row).
Proof.
  intros Hn Hnet Hst Hf.
  rewrite (get_latest_news_run w t n r Hnet Hst).
  rewrite slice_to_positive by lia.
  destruct (rows_of_some _ Hf) as (rows & -> & HF).
  exists rows. split; [reflexivity|]. split.
  - rewrite <- (Forall2_length HF), length_firstn. lia.
  - intros i row Hi.
    destruct (Forall2_nth_error_r _ _ _ _ _ HF Hi) as (it & Hit & Hrow).
    rewrite nth_error_firstn in Hit.
    destruct (i <? Z.to_nat n)%nat; [|discriminate].
    unfold entry_row in Hrow.
    destruct (getattr_tag (lit "title") it) as [title|] eqn:Et;
      [|discriminate].
    destruct (getattr_tag (lit "description") it) as [description|] eqn:Ed;
      [|discriminate].
    injection Hrow as <-.
    exists it, title, description. simpl.
    split; [exact Hit|]. split; [exact Et|]. split; [exact Ed|].
    split; apply strip_trimmed.
Qed.

Lemma get_latest_news_rows_witness :
  let r := {| status_code := 200; body := lit "<rss>AAPL</rss>" |} in
  exists rows,
    outcome (get_latest_news canned (lit "AAPL") 3) = Ok rows
    /\ Z.of_nat (List.length rows)
       = Z.min 3 (Z.of_nat (List.length (feed_entries canned r)))
    /\ forall i row,
        nth_error rows i = Some row ->
        exists it title description,
          nth_error (feed_entries canned r) i = Some it
          /\ getattr_tag (lit "title") it = Some title
          /\ getattr_tag (lit "description") it = Some description
          /\ trimmed_of (text title) (titulo row)
          /\ trimmed_of (text description) (resumo row).
Proof.
  apply (get_latest_news_rows canned (lit "AAPL") 3).
  - reflexivity.
  - reflexivity.
  - simpl. lia.
  - reflexivity.
Defined.

(** The two runs the specification names: three of five entries, and a
    request for ten against a feed of two. *)
Example get_latest_news_three_of_five :
  outcome (get_latest_news canned (lit "AAPL") 3) = Ok (firstn 3 aapl_rows).
Proof. vm_compute. reflexivity. Qed.

Example get_latest_news_ten_of_two :
  outcome (get_latest_news canned (lit "MSFT") 10) = Ok (firstn 2 aapl_rows).
Proof. vm_compute. reflexivity. Qed.

(** C3, as the code has it.  When the feed request is answered with an
    error status (4xx or 5xx, the statuses on which [raise_for_status]
    raises),
    [get_latest_news] raises [HTTPError] right after the request: its
    trace is the GET alone, with no parse of the body, and it returns no
    rows. *)
Theorem get_latest_news_http_error (w : World) (t : str) (n : Z)
  (r : Response) :
  net w (rss_url t) HEADERS = Some r ->
  (400 <= status_code r < 600)%Z ->
  get_latest_news w t n
  = ([Get (rss_url t) HEADERS], Raise (HTTPError (status_code r))).
Proof.
  intros Hnet Hst. unfold get_latest_news, requests_get.
  rewrite Hnet, bind_ok, (raise_for_status_error _ Hst).
  reflexivity.
Qed.

Lemma get_latest_news_http_error_witness :
  get_latest_news canned (lit "NOPE") 5
  = ([Get (rss_url (lit "NOPE")) HEADERS], Raise (HTTPError 500)).
Proof.
  apply (get_latest_news_http_error canned (lit "NOPE") 5
           {| status_code := 500; body := lit "<rss>NOPE</rss>" |}).
  - reflexivity.
  - simpl. lia.
Defined.

(** C3, as stated, fails: a status outside 2xx that is not 4xx or 5xx
    does not raise.  Answered with 304, [get_latest_news] goes on to
    parse the body and returns its rows. *)
Lemma get_latest_news_parses_on_304 :
  net not_modified (rss_url (lit "AAPL")) HEADERS
  = Some {| status_code := 304; body := lit "<rss>AAPL</rss>" |}
  /\ get_latest_news not_modified (lit "AAPL") 5
     = ([Get (rss_url (lit "AAPL")) HEADERS;
         Parse (lit "xml") (lit "<rss>AAPL</rss>")],
        Ok aapl_rows).
Proof. split; vm_compute; reflexivity. Qed.

(** C8.  When the feed request is answered without an error status and
    one of the first [n] entries lacks its title or its description,
    [get_latest_news] raises [AttributeError]: it returns no rows, so no
    entry is skipped and no default is put in. *)
Theorem get_latest_news_malformed (w : World) (t : str) (n : Z)
  (r : Response) (i : nat) (it : node) :
  net w (rss_url t) HEADERS = Some r ->
  ~ (400 <= status_code r < 600)%Z ->
  nth_error (feed_entries w r) i = Some it ->
  (Z.of_nat i < n)%Z ->
  getattr_tag (lit "title") it = None
  \/ getattr_tag (lit "description") it = None ->
  outcome (get_latest_news w t n) = Raise AttributeError.
Proof.
  intros Hnet Hst Hit Hi Hmiss.
  rewrite (get_latest_news_run w t n r Hnet Hst).
  rewrite slice_to_positive by lia.
  assert (In it (firstn (Z.to_nat n) (feed_entries w r))) as Hin.
  { apply nth_error_In with (n := i). rewrite nth_error_firstn.
    destruct (Nat.ltb_spec i (Z.to_nat n)); [exact Hit|lia]. }
  assert (has_fields it = false) as Hf.
  { unfold has_fields. destruct Hmiss as [-> | ->]; [reflexivity|].
    destruct (getattr_tag (lit "title") it); reflexivity. }
  rewrite (rows_of_none _ _ Hin Hf). reflexivity.
Qed.

Lemma get_latest_news_malformed_witness :
  outcome (get_latest_news canned (lit "BROKEN") 10) = Raise AttributeError.
Proof.
  apply (get_latest_news_malformed canned (lit "BROKEN") 10
           {| status_code := 200; body := lit "<rss>BROKEN</rss>" |}
           1%nat (el "item" [] [el "title" [] [txt "Second"]])).
  - reflexivity.
  - simpl. lia.
  - reflexivity.
  - reflexivity.
  - right. reflexivity.
Defined.

(* ===================================================================== *)
(** * The request headers *)
(* ===================================================================== *)

(** C4, as the code has it.  Each of the two requests carries one fixed
    browser-like [User-Agent], whatever the ticker and the answers of the
    network, but not the same one: the page request sends
    ["Mozilla/5.0"], a local value of [fetch_page], and the feed request
    sends the value of [HEADERS],
    ["Mozilla/5.0 (Windows NT 10.0; Win64; x64)"], which the first is a
    proper prefix of. *)
Theorem user_agent_of_each_request (w : World) (t : str) (n : Z) :
  user_agents (trace (fetch_page w t)) = [Some (lit "Mozilla/5.0")]
  /\ user_agents (trace (get_latest_news w t n))
     = [Some (lit "Mozilla/5.0 (Windows NT 10.0; Win64; x64)")]
  /\ is_prefix (lit "Mozilla/5.0")
       (lit "Mozilla/5.0 (Windows NT 10.0; Win64; x64)") = true
  /\ str_eqb (lit "Mozilla/5.0")
       (lit "Mozilla/5.0 (Windows NT 10.0; Win64; x64)") = false.
Proof.
  split; [|split; [|split; reflexivity]].
  - unfold fetch_page, requests_get.
    destruct (net w _ _); reflexivity.
  - unfold get_latest_news, requests_get.
    destruct (net w _ _) as [r|]; [|reflexivity].
    rewrite bind_ok. unfold raise_for_status.
    destruct ((400 <=? status_code r) && (status_code r <? 600))%Z;
      [reflexivity|].
    unfold ret at 1. rewrite bind_ok. unfold BeautifulSoup.
    rewrite bind_ok, for_items_run. unfold trace.
    destruct (rows_of _); reflexivity.
Qed.

(** C4, as stated, fails: on the AAPL fixture the page request and the
    feed request carry different [User-Agent] values. *)
Lemma user_agent_differs :
  user_agents (trace (fetch_page canned (lit "AAPL")))
  = [Some (lit "Mozilla/5.0")]
  /\ user_agents (trace (get_latest_news canned (lit "AAPL") 5))
     = [Some (lit "Mozilla/5.0 (Windows NT 10.0; Win64; x64)")]
  /\ (same_user_agent canned (lit "AAPL") 5 -> False).
Proof.
  split; [reflexivity|]. split; [reflexivity|].
  unfold same_user_agent. vm_compute. discriminate.
Qed.

(* ===================================================================== *)
(** * [analyze_stock] and the run over a list of tickers *)
(* ===================================================================== *)

(** C1.  When the page request is answered and [get_latest_news] returns
    [news], [analyze_stock] returns the record of four fields whose
    ticker is the input unchanged, whose name and price are the two
    extractors applied to the one parsed page, and whose news is [news];
    on the AAPL fixtures that record is AAPL, ["Apple Inc."], ["195.27"]
    and the five rows of the feed in feed order. *)
Theorem analyze_stock_record :
  (forall (w : World) (t : str) (n : Z) (r : Response) (news : list noticia),
      net w (quote_url t) [(lit "User-Agent", lit "Mozilla/5.0")] = Some r ->
      outcome (get_latest_news w t n) = Ok news ->
      outcome (analyze_stock w t n)
      = Ok {| ticker := t;
              nome := get_company_name
                        (parser w (lit "html.parser") (body r));
              preco_atual := get_current_price
                               (parser w (lit "html.parser") (body r));
              noticias := news |})
  /\ outcome (analyze_stock canned (lit "AAPL") 5)
     = Ok {| ticker := lit "AAPL";
             nome := lit "Apple Inc.";
             preco_atual := Some (lit "195.27");
             noticias := aapl_rows |}.
Proof.
  split.
  - intros w t n r news Hnet Hnews. unfold analyze_stock.
    rewrite (fetch_page_run w t r Hnet), bind_ok.
    destruct (get_latest_news w t n) as [tr o]. simpl in Hnews. subst o.
    reflexivity.
  - vm_compute. reflexivity.
Qed.

Lemma analyze_stock_record_witness :
  outcome (analyze_stock canned (lit "AAPL") 5)
  = Ok {| ticker := lit "AAPL";
          nome := get_company_name aapl_page;
          preco_atual := get_current_price aapl_page;
          noticias := aapl_rows |}.
Proof.
  apply (proj1 analyze_stock_record canned (lit "AAPL") 5%Z
           {| status_code := 200; body := lit "<html>AAPL</html>" |}
           aapl_rows).
  - reflexivity.
  - vm_compute. reflexivity.
Defined.

(** C9.  The run over a list of tickers calls [analyze_stock] on each
    ticker in list order; when the call on one ticker raises after the
    calls before it returned, the run raises the same exception right
    there: it yields neither the table of prices nor the list of
    records, and its trace is the traces of the tickers up to the failing
    one, in order, with nothing of the tickers after it. *)
Theorem run_tickers_fail_fast (w : World) (n : Z) (pre post : list str)
  (t : str) (e : exn) :
  Forall (fun t' => exists r, outcome (analyze_stock w t' n) = Ok r) pre ->
  outcome (analyze_stock w t n) = Raise e ->
  run_tickers w (pre ++ t :: post) n
  = (flat_map (fun t' => trace (analyze_stock w t' n)) (pre ++ [t]),
     Raise e).
Proof.
  intros Hpre Ht. unfold run_tickers.
  rewrite (todos_raise w n pre post t e Hpre Ht). reflexivity.
Qed.

Lemma run_tickers_fail_fast_witness :
  run_tickers canned [lit "AAPL"; lit "BADTICKER"; lit "MSFT"] 3
  = (flat_map (fun t' => trace (analyze_stock canned t' 3))
       [lit "AAPL"; lit "BADTICKER"],
     Raise ConnectionError).
Proof.
  apply (run_tickers_fail_fast canned 3 [lit "AAPL"] [lit "MSFT"]
           (lit "BADTICKER") ConnectionError).
  - constructor; [|constructor].
    eexists. vm_compute. reflexivity.
  - vm_compute. reflexivity.
Defined.

(** X14.  When every call returns, the run returns the table and the
    records, one per ticker in list order, and its trace is the traces of
    the tickers in that order. *)
Lemma run_tickers_all_ok (w : World) (n : Z) (tickers : list str)
  (rs : list snapshot) :
  Forall2 (fun t r => outcome (analyze_stock w t n) = Ok r) tickers rs ->
  run_tickers w tickers n
  = (flat_map (fun t => trace (analyze_stock w t n)) tickers,
     Ok (df_prices rs, rs)).
Proof.
  intros H. unfold run_tickers.
  rewrite (todos_ok w n tickers rs H), bind_ok.
  unfold trace, outcome. simpl. rewrite app_nil_r. reflexivity.
Qed.

(** The run the specification names: AAPL, then a ticker whose page
    request fails in transport. *)
Example run_tickers_bad_ticker :
  outcome (run_tickers canned [lit "AAPL"; lit "BADTICKER"] 3)
  = Raise ConnectionError.
Proof. vm_compute. reflexivity. Qed.

(* ===================================================================== *)
(** * Runs of [clean_company_name] *)
(* ===================================================================== *)

Example clean_apple :
  clean_company_name (lit "Apple Inc. (AAPL)") = lit "Apple Inc.".
Proof. vm_compute. reflexivity. Qed.

(** A group ends at the first [")"] after its ["("]. *)
Example clean_nested :
  clean_company_name (lit "A (b (c) d) E") = lit "A d) E".
Proof. vm_compute. reflexivity. Qed.

(** A ["("] that is never closed stays. *)
Example clean_unclosed :
  clean_company_name (lit "Alpha (A) Beta (B") = lit "Alpha Beta (B".
Proof. vm_compute. reflexivity. Qed.

Example utf8_sentinel : utf8 "Nome não encontrado" = nome_nao_encontrado.
Proof. vm_compute. reflexivity. Qed.

(* ===================================================================== *)
(** * Further properties of the scraping functions *)
(* ===================================================================== *)

Section MoreFacts.

Lemma find_first_match (name : str) (cond : node -> bool) (soup x : node) :
  first_match name cond soup x -> find name cond soup = Some x.
Proof.
  intros (pre & post & Hd & Hpre & Hx). unfold find, find_all.
  rewrite Hd, filter_app, (filter_none _ _ Hpre). simpl.
  rewrite Hx. reflexivity.
Qed.

Lemma strip_blank (s : str) : forallb isspace s = true -> strip s = [].
Proof.
  intros H. unfold strip.
  rewrite <- (app_nil_r s), lstrip_spaces_app by exact H. reflexivity.
Qed.

Lemma strip_no_outer_space (s : str) : no_outer_space (strip s).
Proof.
  destruct (strip_trimmed s) as (l & r & _ & _ & _ & Hh & Ht).
  split; assumption.
Qed.

Lemma subseq_refl (s : str) : subseq s s.
Proof. induction s; constructor; assumption. Qed.

Lemma subseq_skip (l a b : str) : subseq a b -> subseq a (l ++ b).
Proof. intros H. induction l; simpl; [exact H|constructor; exact IHl]. Qed.

Lemma subseq_app (a b c d : str) :
  subseq a b -> subseq c d -> subseq (a ++ c) (b ++ d).
Proof.
  intros H Hcd. induction H; simpl; [exact Hcd| |]; constructor; assumption.
Qed.

Lemma subseq_trans (a b c : str) : subseq a b -> subseq b c -> subseq a c.
Proof.
  intros Hab Hbc. revert a Hab.
  induction Hbc as [|x b c Hbc IH|x b c Hbc IH]; intros a Hab.
  - exact Hab.
  - inversion Hab; subst; constructor; auto.
  - constructor. auto.
Qed.

Lemma subseq_length (a b : str) :
  subseq a b -> List.length a <= List.length b.
Proof. induction 1; simpl; lia. Qed.

Lemma subseq_strip (s : str) : subseq (strip s) s.
Proof.
  destruct (strip_trimmed s) as (l & r & Hs & _).
  rewrite Hs at 2. apply subseq_skip.
  rewrite <- (app_nil_r (strip s)) at 1.
  apply subseq_app; [apply subseq_refl|].
  clear. induction r; constructor; assumption.
Qed.

Lemma subseq_kept (gs : list group) (tail : str) :
  subseq (kept gs tail) (assemble gs tail).
Proof.
  induction gs as [|g gs IH]; simpl; [apply subseq_refl|].
  apply subseq_app; [apply subseq_refl|].
  apply subseq_skip. constructor.
  apply subseq_skip. constructor. exact IH.
Qed.

Lemma no_lparen_no_group (s : str) :
  mem chr_lparen s = false -> no_group s = true.
Proof.
  unfold mem. induction s as [|c tl IH]; [reflexivity|].
  cbn [existsb no_group]. intros H.
  apply orb_false_iff in H as [Hc Htl].
  rewrite N.eqb_sym in Hc. rewrite Hc, (IH Htl). reflexivity.
Qed.

Lemma todos_inv (w : World) (n : Z) (tickers : list str)
  (rs : list snapshot) :
  outcome (todos w tickers n) = Ok rs ->
  Forall2 (fun t r => outcome (analyze_stock w t n) = Ok r) tickers rs.
Proof.
  revert rs. induction tickers as [|t rest IH]; intros rs; simpl.
  - intros [= <-]. constructor.
  - destruct (analyze_stock w t n) as [tr [r|e]] eqn:E; [|discriminate].
    rewrite bind_ok.
    destruct (todos w rest n) as [tr' [rs'|e]]; [|discriminate].
    simpl. intros [= <-].
    constructor; [rewrite E; reflexivity|]. apply IH. reflexivity.
Qed.

Lemma analyze_stock_ticker (w : World) (t : str) (n : Z) (r : snapshot) :
  outcome (analyze_stock w t n) = Ok r -> ticker r = t.
Proof.
  unfold analyze_stock.
  destruct (fetch_page w t) as [tr [soup|e]]; [|discriminate].
  rewrite bind_ok.
  destruct (get_latest_news w t n) as [tr' [news|e]]; [|discriminate].
  simpl. intros [= <-]. reflexivity.
Qed.

End MoreFacts.

(** ** [analyze_stock]: what a failing step leaves *)

(** X1.  When the page request fails in transport, [analyze_stock] raises
    [ConnectionError] after that one request: it makes no feed request
    and parses nothing. *)
Theorem analyze_stock_page_unreachable (w : World) (t : str) (n : Z) :
  net w (quote_url t) [(lit "User-Agent", lit "Mozilla/5.0")] = None ->
  analyze_stock w t n
  = ([Get (quote_url t) [(lit "User-Agent", lit "Mozilla/5.0")]],
     Raise ConnectionError).
Proof.
  intros H. unfold analyze_stock, fetch_page, requests_get.
  rewrite H. reflexivity.
Qed.

Lemma analyze_stock_page_unreachable_witness :
  analyze_stock canned (lit "BADTICKER") 5
  = ([Get (quote_url (lit "BADTICKER"))
        [(lit "User-Agent", lit "Mozilla/5.0")]],
     Raise ConnectionError).
Proof.
  apply (analyze_stock_page_unreachable canned (lit "BADTICKER") 5).
  reflexivity.
Defined.

(** X2.  When the page is fetched and [get_latest_news] raises,
    [analyze_stock] raises the same exception, unchanged, after the page
    request, its parse and what the news step did; the name and the price
    already extracted are not returned. *)
Theorem analyze_stock_feed_failure (w : World) (t : str) (n : Z)
  (r : Response) (e : exn) :
  net w (quote_url t) [(lit "User-Agent", lit "Mozilla/5.0")] = Some r ->
  outcome (get_latest_news w t n) = Raise e ->
  analyze_stock w t n
  = ([Get (quote_url t) [(lit "User-Agent", lit "Mozilla/5.0")];
      Parse (lit "html.parser") (body r)]
       ++ trace (get_latest_news w t n),
     Raise e).
Proof.
  intros Hnet Hnews. unfold analyze_stock.
  rewrite (fetch_page_run w t r Hnet), bind_ok.
  destruct (get_latest_news w t n) as [tr o]. simpl in Hnews. subst o.
  reflexivity.
Qed.

Lemma analyze_stock_feed_failure_witness :
  analyze_stock canned (lit "NOPE") 5
  = ([Get (quote_url (lit "NOPE")) [(lit "User-Agent", lit "Mozilla/5.0")];
      Parse (lit "html.parser") (lit "<html>NOPE</html>")]
       ++ trace (get_latest_news canned (lit "NOPE") 5),
     Raise (HTTPError 500)).
Proof.
  apply (analyze_stock_feed_failure canned (lit "NOPE") 5
           {| status_code := 200; body := lit "<html>NOPE</html>" |}
           (HTTPError 500)); reflexivity.
Defined.

(** X3.  A page with neither the name heading nor the price element does
    not stop [analyze_stock], whatever the status of the page response:
    when the news step returns, the record holds the sentinel name and
    no price. *)
Theorem analyze_stock_bare_page (w : World) (t : str) (n : Z)
  (r : Response) (news : list noticia) :
  net w (quote_url t) [(lit "User-Agent", lit "Mozilla/5.0")] = Some r ->
  absent (lit "h1") (has_class (lit "yf-xxbei9"))
    (parser w (lit "html.parser") (body r)) ->
  absent (lit "span") (attr_is (lit "data-testid") (lit "qsp-price"))
    (parser w (lit "html.parser") (body r)) ->
  outcome (get_latest_news w t n) = Ok news ->
  outcome (analyze_stock w t n)
  = Ok {| ticker := t;
          nome := nome_nao_encontrado;
          preco_atual := None;
          noticias := news |}.
Proof.
  intros Hnet Hh Hp Hnews. unfold analyze_stock.
  rewrite (fetch_page_run w t r Hnet), bind_ok.
  destruct (get_latest_news w t n) as [tr o]. simpl in Hnews. subst o.
  unfold get_company_name, get_current_price.
  rewrite (find_absent _ _ _ Hh), (find_absent _ _ _ Hp). reflexivity.
Qed.

Lemma analyze_stock_bare_page_witness :
  outcome (analyze_stock canned (lit "MSFT") 5)
  = Ok {| ticker := lit "MSFT";
          nome := nome_nao_encontrado;
          preco_atual := None;
          noticias := firstn 2 aapl_rows |}.
Proof.
  apply (analyze_stock_bare_page canned (lit "MSFT") 5
           {| status_code := 200; body := lit "<html>MSFT</html>" |}).
  - reflexivity.
  - apply absent_scan. reflexivity.
  - apply absent_scan. reflexivity.
  - vm_compute. reflexivity.
Defined.

(** ** [get_latest_news]: counts that are not positive *)

(** X4.  With a count of zero [get_latest_news] returns no row, and with
    a negative count [n] it returns the rows of all the entries but the
    last [-n] (the slice [[:n]] of Python), none when the feed has no
    more than [-n] entries; the request and the parse are made all the
    same, and row [i] still comes from entry [i]. *)
Theorem get_latest_news_nonpositive (w : World) (t : str) (n : Z)
  (r : Response) :
  (n <= 0)%Z ->
  net w (rss_url t) HEADERS = Some r ->
  ~ (400 <= status_code r < 600)%Z ->
  forallb has_fields (slice_to n (feed_entries w r)) = true ->
  exists rows,
    get_latest_news w t n
    = ([Get (rss_url t) HEADERS; Parse (lit "xml") (body r)], Ok rows)
    /\ Z.of_nat (List.length rows)
       = (if (n =? 0)%Z then 0
          else Z.max 0 (Z.of_nat (List.length (feed_entries w r)) + n))%Z
    /\ forall i row,
        nth_error rows i = Some row ->
        exists it, nth_error (feed_entries w r) i = Some it
                   /\ entry_row it = Some row.
Proof.
  intros Hn Hnet Hst Hf.
  rewrite (get_latest_news_run w t n r Hnet Hst).
  destruct (rows_of_some _ Hf) as (rows & -> & HF).
  exists rows. split; [reflexivity|].
  assert (exists k, slice_to n (feed_entries w r)
                    = firstn k (feed_entries w r)
                    /\ Z.of_nat (Nat.min k (List.length (feed_entries w r)))
                       = (if (n =? 0)%Z then 0
                          else Z.max 0
                                 (Z.of_nat (List.length (feed_entries w r))
                                  + n))%Z)
    as (k & Hk & Hlen).
  { unfold slice_to. destruct (Z.ltb_spec n 0).
    - eexists. split; [reflexivity|].
      destruct (Z.eqb_spec n 0); lia.
    - exists (Z.to_nat n). split; [reflexivity|].
      destruct (Z.eqb_spec n 0); lia. }
  rewrite Hk in HF. split.
  - rewrite <- (Forall2_length HF), length_firstn. exact Hlen.
  - intros i row Hi.
    destruct (Forall2_nth_error_r _ _ _ _ _ HF Hi) as (it & Hit & Hrow).
    rewrite nth_error_firstn in Hit.
    destruct (i <? k)%nat; [|discriminate].
    exists it. auto.
Qed.

Lemma get_latest_news_nonpositive_witness :
  exists rows,
    get_latest_news canned (lit "AAPL") (-2)
    = ([Get (rss_url (lit "AAPL")) HEADERS;
        Parse (lit "xml") (lit "<rss>AAPL</rss>")], Ok rows)
    /\ Z.of_nat (List.length rows) = 3%Z
    /\ forall i row,
        nth_error rows i = Some row ->
        exists it,
          nth_error
            (feed_entries canned
               {| status_code := 200; body := lit "<rss>AAPL</rss>" |}) i
          = Some it
          /\ entry_row it = Some row.
Proof.
  apply (get_latest_news_nonpositive canned (lit "AAPL") (-2)
           {| status_code := 200; body := lit "<rss>AAPL</rss>" |}).
  - discriminate.
  - reflexivity.
  - simpl. lia.
  - reflexivity.
Defined.

(** ** The requests a run makes *)

Lemma requested_app (a b : list event) :
  requested (a ++ b) = requested a ++ requested b.
Proof. unfold requested. apply flat_map_app. Qed.

Lemma requested_get_latest_news (w : World) (t : str) (n : Z) :
  requested (trace (get_latest_news w t n)) = [rss_url t].
Proof.
  unfold get_latest_news, requests_get.
  destruct (net w _ _) as [r|]; [|reflexivity].
  rewrite bind_ok. unfold raise_for_status.
  destruct ((400 <=? status_code r) && (status_code r <? 600))%Z;
    [reflexivity|].
  unfold ret at 1. rewrite bind_ok. unfold BeautifulSoup.
  rewrite bind_ok, for_items_run. unfold trace.
  destruct (rows_of _); reflexivity.
Qed.

(** X5.  Whatever the network answers, [get_latest_news] makes exactly
    one request, to the feed URL of its ticker, and [analyze_stock] makes
    the page request of its ticker and then at most the feed request:
    no request is repeated, and the feed is never asked before the
    page. *)
Theorem requests_of_a_run (w : World) (t : str) (n : Z) :
  requested (trace (get_latest_news w t n)) = [rss_url t]
  /\ (requested (trace (analyze_stock w t n)) = [quote_url t]
      \/ requested (trace (analyze_stock w t n))
         = [quote_url t; rss_url t]).
Proof.
  split; [apply requested_get_latest_news|].
  destruct (net w (quote_url t) [(lit "User-Agent", lit "Mozilla/5.0")])
    as [r|] eqn:E.
  - right. unfold analyze_stock.
    rewrite (fetch_page_run w t r E), bind_ok.
    pose proof (requested_get_latest_news w t n) as Hn.
    destruct (get_latest_news w t n) as [tr [news|e]];
      unfold trace in *; simpl in *; rewrite ?app_nil_r; rewrite Hn;
      reflexivity.
  - left. unfold analyze_stock, fetch_page, requests_get.
    rewrite E. reflexivity.
Qed.

(** ** [clean_company_name] and the extractors *)

(** X6.  A name without any ["("] is only trimmed. *)
Theorem clean_company_name_no_paren (name : str) :
  mem chr_lparen name = false ->
  clean_company_name name = strip name.
Proof.
  intros H. unfold clean_company_name.
  rewrite re_sub_no_group by (apply no_lparen_no_group; exact H).
  reflexivity.
Qed.

Lemma clean_company_name_no_paren_witness :
  clean_company_name (lit " Alphabet Inc. ") = strip (lit " Alphabet Inc. ").
Proof.
  apply clean_company_name_no_paren. reflexivity.
Defined.

(** X7.  [clean_company_name] only deletes: its result is the name with
    some characters removed, in the same order, so it is never longer
    than the name. *)
Theorem clean_company_name_only_deletes (name : str) :
  subseq (clean_company_name name) name
  /\ List.length (clean_company_name name) <= List.length name.
Proof.
  assert (subseq (clean_company_name name) name) as H.
  { destruct (every_name_decomposes name) as (gs & tail & Hs & Hgs & Ht).
    unfold clean_company_name.
    apply subseq_trans with (b := re_sub name_pattern name);
      [apply subseq_strip|].
    rewrite Hs at 1. rewrite re_sub_assemble by assumption.
    rewrite Hs. apply subseq_kept. }
  split; [exact H|]. apply subseq_length. exact H.
Qed.

(** X8.  What the extractors return never starts or ends with
    whitespace: neither the name, be it the cleaned heading or the
    sentinel, nor the price when there is one. *)
Theorem extracted_fields_trimmed (soup : node) :
  no_outer_space (get_company_name soup)
  /\ match get_current_price soup with
     | Some p => no_outer_space p
     | None => True
     end.
Proof.
  split.
  - unfold get_company_name.
    destruct (find _ _ soup).
    + apply strip_no_outer_space.
    + split; reflexivity.
  - unfold get_current_price.
    destruct (find _ _ soup); [apply strip_no_outer_space|exact I].
Qed.

(** X9.  A name heading that is present but blank gives the empty
    string, not the sentinel: the sentinel stands for an absent heading
    only. *)
Theorem get_company_name_blank_heading (soup h1 : node) :
  find (lit "h1") (has_class (lit "yf-xxbei9")) soup = Some h1 ->
  forallb isspace (text h1) = true ->
  get_company_name soup = []
  /\ get_company_name soup <> nome_nao_encontrado.
Proof.
  intros Hfind Hblank. unfold get_company_name.
  rewrite Hfind, (strip_blank _ Hblank).
  split; [reflexivity|discriminate].
Qed.

Lemma get_company_name_blank_heading_witness :
  let soup := document [el "h1" [("class", "yf-xxbei9")%string]
                          [txt "  "]] in
  get_company_name soup = []
  /\ get_company_name soup <> nome_nao_encontrado.
Proof.
  apply (get_company_name_blank_heading
           (document [el "h1" [("class", "yf-xxbei9")%string] [txt "  "]])
           (el "h1" [("class", "yf-xxbei9")%string] [txt "  "]));
    reflexivity.
Defined.

Lemma get_current_price_none_witness :
  absent (lit "span") (attr_is (lit "data-testid") (lit "qsp-price"))
    bare_page.
Proof.
  apply (get_current_price_none bare_page). reflexivity.
Defined.

(** X11.  The name comes from the first heading of the page, in document
    order, that is an [h1] of class [yf-xxbei9]; what follows it in the
    page, later headings of that class included, does not count. *)
Theorem get_company_name_first_heading (soup h1 : node) :
  first_match (lit "h1") (has_class (lit "yf-xxbei9")) soup h1 ->
  get_company_name soup = clean_company_name (strip (text h1)).
Proof.
  intros H. unfold get_company_name.
  rewrite (find_first_match _ _ _ _ H). reflexivity.
Qed.

Lemma get_company_name_first_heading_witness :
  get_company_name
    (document
       [el "h1" [("class", "logo")%string] [txt "Finance"];
        el "h1" [("class", "big yf-xxbei9")%string] [txt "First Corp (ONE)"];
        el "h1" [("class", "yf-xxbei9")%string] [txt "Second Corp (TWO)"]])
  = clean_company_name (strip (lit "First Corp (ONE)")).
Proof.
  apply (get_company_name_first_heading
           (document
              [el "h1" [("class", "logo")%string] [txt "Finance"];
               el "h1" [("class", "big yf-xxbei9")%string]
                 [txt "First Corp (ONE)"];
               el "h1" [("class", "yf-xxbei9")%string]
                 [txt "Second Corp (TWO)"]])
           (el "h1" [("class", "big yf-xxbei9")%string]
              [txt "First Corp (ONE)"])).
  exists [el "h1" [("class", "logo")%string] [txt "Finance"];
          txt "Finance"].
  eexists. split; [reflexivity|]. split; [|reflexivity].
  intros n [<-|[<-|[]]]; reflexivity.
Defined.

(** X12.  The price comes from the first [span] of the page, in document
    order, whose [data-testid] is [qsp-price]: it is the text of that
    span, trimmed. *)
Theorem get_current_price_first_span (soup span : node) :
  first_match (lit "span") (attr_is (lit "data-testid") (lit "qsp-price"))
    soup span ->
  get_current_price soup = Some (strip (text span)).
Proof.
  intros H. unfold get_current_price.
  rewrite (find_first_match _ _ _ _ H). reflexivity.
Qed.

Lemma get_current_price_first_span_witness :
  get_current_price
    (document
       [el "span" [("data-testid", "qsp-price-change")%string] [txt "+1.02"];
        el "span" [("data-testid", "qsp-price")%string] [txt " 195.27 "];
        el "span" [("data-testid", "qsp-price")%string] [txt "200.00"]])
  = Some (strip (lit " 195.27 ")).
Proof.
  apply (get_current_price_first_span
           (document
              [el "span" [("data-testid", "qsp-price-change")%string]
                 [txt "+1.02"];
               el "span" [("data-testid", "qsp-price")%string]
                 [txt " 195.27 "];
               el "span" [("data-testid", "qsp-price")%string]
                 [txt "200.00"]])
           (el "span" [("data-testid", "qsp-price")%string]
              [txt " 195.27 "])).
  exists [el "span" [("data-testid", "qsp-price-change")%string]
            [txt "+1.02"];
          txt "+1.02"].
  eexists. split; [reflexivity|]. split; [|reflexivity].
  intros n [<-|[<-|[]]]; reflexivity.
Defined.

(** ** The run over a list of tickers, when it returns *)

(** X13.  When the run over a list of tickers returns, the list of
    records and the table of prices each hold one entry per ticker, in
    list order: the ticker column of the table is the list of tickers
    itself, and the table is the records without their news. *)
Theorem run_tickers_table (w : World) (tickers : list str) (n : Z)
  (table : list (str * str * option str)) (rs : list snapshot) :
  outcome (run_tickers w tickers n) = Ok (table, rs) ->
  map ticker rs = tickers
  /\ table = df_prices rs
  /\ map (fun row => fst (fst row)) table = tickers
  /\ List.length table = List.length tickers.
Proof.
  unfold run_tickers. intros H.
  destruct (todos w tickers n) as [tr [rs'|e]] eqn:E; [|discriminate].
  rewrite bind_ok in H. simpl in H. injection H as <- <-.
  assert (map ticker rs' = tickers) as Hmap.
  { assert (outcome (todos w tickers n) = Ok rs') as Ho
        by (rewrite E; reflexivity).
    apply todos_inv in Ho. clear E.
    induction Ho as [|t r ts rs0 Hr _ IH]; [reflexivity|].
    simpl. rewrite IH, (analyze_stock_ticker _ _ _ _ Hr). reflexivity. }
  split; [exact Hmap|]. split; [reflexivity|].
  unfold df_prices. rewrite map_map. simpl.
  split; [exact Hmap|].
  rewrite length_map, <- Hmap, length_map. reflexivity.
Qed.

Lemma run_tickers_table_witness :
  let rs := [ {| ticker := lit "AAPL";
                 nome := lit "Apple Inc.";
                 preco_atual := Some (lit "195.27");
                 noticias := firstn 3 aapl_rows |};
              {| ticker := lit "MSFT";
                 nome := nome_nao_encontrado;
                 preco_atual := None;
                 noticias := firstn 2 aapl_rows |} ] in
  map ticker rs = [lit "AAPL"; lit "MSFT"]
  /\ df_prices rs = df_prices rs
  /\ map (fun row => fst (fst row)) (df_prices rs) = [lit "AAPL"; lit "MSFT"]
  /\ List.length (df_prices rs) = 2.
Proof.
  apply (run_tickers_table canned [lit "AAPL"; lit "MSFT"] 3).
  vm_compute. reflexivity.
Defined.

Lemma run_tickers_all_ok_witness :
  run_tickers canned [lit "AAPL"; lit "MSFT"] 3
  = (flat_map (fun t => trace (analyze_stock canned t 3))
       [lit "AAPL"; lit "MSFT"],
     Ok (df_prices
           [ {| ticker := lit "AAPL";
                nome := lit "Apple Inc.";
                preco_atual := Some (lit "195.27");
                noticias := firstn 3 aapl_rows |};
             {| ticker := lit "MSFT";
                nome := nome_nao_encontrado;
                preco_atual := None;
                noticias := firstn 2 aapl_rows |} ],
         [ {| ticker := lit "AAPL";
              nome := lit "Apple Inc.";
              preco_atual := Some (lit "195.27");
              noticias := firstn 3 aapl_rows |};
           {| ticker := lit "MSFT";
              nome := nome_nao_encontrado;
              preco_atual := None;
              noticias := firstn 2 aapl_rows |} ])).
Proof.
  apply (run_tickers_all_ok canned 3 [lit "AAPL"; lit "MSFT"]).
  repeat constructor; vm_compute; reflexivity.
Defined.

(* ===================================================================== *)
(** * The sentiment cells *)
(* ===================================================================== *)

Section SentimentFacts.

Context (w : World) (client : Client).

Lemma kbind_done {A B} (t : list action) (a : A) (f : A -> K B) :
  kbind (t, Done a) f = (t ++ actions (f a), answer_of (f a)).
Proof. unfold kbind, actions, answer_of. destruct (f a). reflexivity. Qed.

Lemma chats_app (a b : list action) : chats (a ++ b) = chats a ++ chats b.
Proof. unfold chats. apply flat_map_app. Qed.

Lemma chats_net (tr : list event) : chats (map Net tr) = [].
Proof. induction tr as [|e tr IH]; [reflexivity|exact IH]. Qed.

Lemma sentimento_run (df : list noticia) (cotacao : option str)
  (d : str) :
  sentimento_geral_noticias df cotacao client d
  = ([Chat (request_for df cotacao d)],
     match client (request_for df cotacao d) with
     | None => Fail APIError
     | Some resp =>
         match choices resp with
         | [] => Fail IndexError
         | None :: _ => Fail (Inner AttributeError)
         | Some c :: _ => Done (strip c)
         end
     end).
Proof.
  unfold sentimento_geral_noticias, chat_completions_create.
  fold (request_for df cotacao d).
  destruct (client (request_for df cotacao d)) as [resp|]; [|reflexivity].
  rewrite kbind_done.
  destruct (choices resp) as [|[c|] rest]; reflexivity.
Qed.

(** One ticker of the last cell, by what [analyze_stock] gives. *)
Lemma resultado_de_run (t : str) :
  resultado_de w client t
  = match outcome (analyze_stock w t 5) with
    | Raise e => (map Net (trace (analyze_stock w t 5)), Fail (Inner e))
    | Ok snap =>
        (map Net (trace (analyze_stock w t 5))
           ++ [Chat (request_for (noticias snap) (preco_atual snap)
                       default_deployment_name)],
         match answer_of (sentimento_geral_noticias (noticias snap)
                            (preco_atual snap) client
                            default_deployment_name) with
         | Done s => Done {| res_ticker := t;
                             res_nome := nome snap;
                             res_cotacao := preco_atual snap;
                             res_sentimento := s |}
         | Fail e => Fail e
         end)
    end.
Proof.
  unfold resultado_de, lift.
  destruct (outcome (analyze_stock w t 5)) as [snap|e]; [|reflexivity].
  rewrite kbind_done, sentimento_run. unfold actions, answer_of. simpl.
  destruct (client _) as [resp|]; [|reflexivity].
  destruct (choices resp) as [|[c|] rest]; reflexivity.
Qed.

Lemma resultados_fail (pre post : list str) (t : str) (e : error)
  (acc rs : list resultado) :
  Forall2 (fun t' r => answer_of (resultado_de w client t') = Done r)
    pre rs ->
  answer_of (resultado_de w client t) = Fail e ->
  resultados w client (pre ++ t :: post) acc
  = {| run_actions :=
         flat_map (fun t' => actions (resultado_de w client t')) (pre ++ [t]);
       run_resultados := acc ++ rs;
       run_error := Some e |}.
Proof.
  intros Hpre Ht. revert acc.
  induction Hpre as [|t0 r0 pre rs H0 _ IH]; intros acc; simpl.
  - destruct (resultado_de w client t) as [tr o]. simpl in Ht. subst o.
    simpl. rewrite !app_nil_r. reflexivity.
  - destruct (resultado_de w client t0) as [tr0 o0]. simpl in H0. subst o0.
    rewrite IH. simpl. rewrite <- app_assoc. reflexivity.
Qed.

Lemma resultados_done (tickers : list str) (acc : list resultado) :
  run_error (resultados w client tickers acc) = None ->
  exists rs',
    run_resultados (resultados w client tickers acc) = acc ++ rs'
    /\ Forall2 (fun t r => answer_of (resultado_de w client t) = Done r)
         tickers rs'.
Proof.
  revert acc. induction tickers as [|t rest IH]; intros acc; simpl.
  - intros _. exists []. rewrite app_nil_r. split; constructor.
  - destruct (resultado_de w client t) as [tr [r|e]] eqn:E; [|discriminate].
    simpl. intros H.
    destruct (IH _ H) as (rs' & -> & HF).
    exists (r :: rs'). rewrite <- app_assoc. split; [reflexivity|].
    constructor; [rewrite E; reflexivity|exact HF].
Qed.

Lemma chats_resultado_de (t : str) :
  chats (actions (resultado_de w client t)) = []
  \/ exists snap,
      outcome (analyze_stock w t 5) = Ok snap
      /\ chats (actions (resultado_de w client t))
         = [request_for (noticias snap) (preco_atual snap)
              default_deployment_name].
Proof.
  rewrite resultado_de_run.
  destruct (outcome (analyze_stock w t 5)) as [snap|e] eqn:E.
  - right. exists snap. split; [reflexivity|].
    unfold actions. simpl. rewrite chats_app, chats_net. reflexivity.
  - left. apply chats_net.
Qed.

End SentimentFacts.

Section ContainsFacts.

Lemma is_prefix_app (p b : str) : is_prefix p (p ++ b) = true.
Proof.
  induction p as [|c p IH]; [reflexivity|].
  simpl. rewrite N.eqb_refl. exact IH.
Qed.

Lemma is_prefix_app_r (p a b : str) :
  is_prefix p a = true -> is_prefix p (a ++ b) = true.
Proof.
  revert a. induction p as [|c p IH]; intros a; [reflexivity|].
  destruct a as [|x a]; simpl; [discriminate|].
  intros H. apply andb_true_iff in H as [Hc Hp].
  rewrite Hc. simpl. auto.
Qed.

Lemma contains_nil (s : str) : contains [] s = true.
Proof. destruct s; reflexivity. Qed.

Lemma contains_self (s : str) : contains s s = true.
Proof.
  pose proof (is_prefix_app s []) as H. rewrite app_nil_r in H.
  destruct s; simpl in *; [reflexivity|]. rewrite H. reflexivity.
Qed.

Lemma contains_app_r (sub a b : str) :
  contains sub b = true -> contains sub (a ++ b) = true.
Proof.
  intros H. induction a as [|c a IH]; [exact H|].
  simpl. rewrite IH. apply orb_true_r.
Qed.

Lemma contains_app_l (sub a b : str) :
  contains sub a = true -> contains sub (a ++ b) = true.
Proof.
  induction a as [|c a IH].
  - destruct sub; [intros _; apply contains_nil|discriminate].
  - simpl. intros H. apply orb_true_iff in H as [H|H].
    + change (c :: a ++ b) with ((c :: a) ++ b).
      rewrite (is_prefix_app_r _ _ _ H). reflexivity.
    + rewrite (IH H). apply orb_true_r.
Qed.

Lemma contains_here (sub a b : str) : contains sub (a ++ sub ++ b) = true.
Proof.
  apply contains_app_r.
  destruct (sub ++ b) eqn:E; simpl; rewrite <- E, is_prefix_app;
    reflexivity.
Qed.

Lemma contains_join (sep x : str) (xs : list str) :
  In x xs -> contains x (join sep xs) = true.
Proof.
  induction xs as [|y rest IH]; [intros []|].
  intros Hin. destruct rest as [|z rest'].
  - destruct Hin as [->|[]]. simpl.
    rewrite <- (app_nil_r x) at 2. rewrite <- (app_nil_l (x ++ [])).
    apply contains_here.
  - change (join sep (y :: z :: rest'))
      with (y ++ sep ++ join sep (z :: rest')).
    destruct Hin as [->|Hin].
    + rewrite <- (app_nil_l (x ++ _)). apply contains_here.
    + apply contains_app_r, contains_app_r, IH. exact Hin.
Qed.

End ContainsFacts.

(** ** [sentimento_geral_noticias] *)

(** X15.  [sentimento_geral_noticias] makes exactly one completion call,
    a single user message holding the prompt, at most 150 tokens,
    temperature 0.  It returns the content of the first choice, trimmed,
    and looks at no other choice; it fails when the call fails, when the
    response has no choice ([IndexError]) and when the content of the
    first choice is [None] ([AttributeError]), and in no other way. *)
Theorem sentimento_geral_noticias_answer (df : list noticia)
  (cotacao : option str) (client : Client) (d : str) :
  actions (sentimento_geral_noticias df cotacao client d)
  = [Chat {| model := d;
             messages := [(lit "user", prompt df cotacao)];
             max_tokens := 150;
             temperature := 0 |}]
  /\ (forall s,
         answer_of (sentimento_geral_noticias df cotacao client d) = Done s
         <-> exists resp c rest,
             client (request_for df cotacao d) = Some resp
             /\ choices resp = Some c :: rest
             /\ s = strip c)
  /\ (forall e,
         answer_of (sentimento_geral_noticias df cotacao client d) = Fail e
         <-> (e = APIError /\ client (request_for df cotacao d) = None)
             \/ (e = IndexError
                 /\ exists resp,
                     client (request_for df cotacao d) = Some resp
                     /\ choices resp = [])
             \/ (e = Inner AttributeError
                 /\ exists resp rest,
                     client (request_for df cotacao d) = Some resp
                     /\ choices resp = None :: rest)).
Proof.
  rewrite sentimento_run. unfold actions, answer_of. simpl.
  split; [reflexivity|].
  destruct (client (request_for df cotacao d)) as [resp|].
  - destruct (choices resp) as [|[c|] rest] eqn:E; split.
    + intros s. split; [discriminate|].
      intros (resp' & c & rest' & [= <-] & H & _). congruence.
    + intros e. split.
      * intros [= <-]. right. left. split; [reflexivity|]. exists resp. auto.
      * intros [[_ H]|[[-> _]|[_ (resp' & rest' & [= <-] & H)]]];
          [discriminate|reflexivity|congruence].
    + intros s. split.
      * intros [= <-]. exists resp, c, rest. auto.
      * intros (resp' & c' & rest' & [= <-] & H & ->). congruence.
    + intros e. split; [discriminate|].
      intros [[_ H]|[[_ (resp' & [= <-] & H)]|[_ (resp' & rest' & [= <-] & H)]]];
        [discriminate|congruence|congruence].
    + intros s. split; [discriminate|].
      intros (resp' & c & rest' & [= <-] & H & _). congruence.
    + intros e. split.
      * intros [= <-]. right. right. split; [reflexivity|].
        exists resp, rest. auto.
      * intros [[_ H]|[[_ (resp' & [= <-] & H)]|[-> _]]];
          [discriminate|congruence|reflexivity].
  - split.
    + intros s. split; [discriminate|].
      intros (resp & c & rest & H & _). discriminate.
    + intros e. split.
      * intros [= <-]. left. auto.
      * intros [[-> _]|[[_ (resp & H & _)]|[_ (resp & rest & H & _)]]];
          [reflexivity|discriminate|discriminate].
Qed.

(** ** The prompt *)

(** X19.  The prompt holds the text of every row of the news, with its
    title and its summary in full. *)
Theorem prompt_lists_every_row (df : list noticia) (cotacao : option str)
  (row : noticia) :
  In row df ->
  contains (texto row) (prompt df cotacao) = true
  /\ contains (titulo row) (texto row) = true
  /\ contains (resumo row) (texto row) = true.
Proof.
  intros Hin. split; [|split].
  - unfold prompt. cbv zeta.
    do 8 apply contains_app_r.
    apply contains_join. apply in_map. exact Hin.
  - unfold texto. apply contains_app_r.
    rewrite <- (app_nil_l (titulo row ++ _)). apply contains_here.
  - unfold texto. do 4 apply contains_app_r. apply contains_self.
Qed.

Lemma prompt_lists_every_row_witness :
  let row := {| titulo := lit "Dan Ives Fires Back";
                resumo := lit "On Friday, May 23, Wedbush analyst Dan Ives" |}
  in
  contains (texto row) (prompt aapl_rows (Some (lit "195.27"))) = true
  /\ contains (titulo row) (texto row) = true
  /\ contains (resumo row) (texto row) = true.
Proof.
  apply (prompt_lists_every_row aapl_rows (Some (lit "195.27"))).
  right. right. left. reflexivity.
Defined.

(** ** The last cell *)

(** X16.  The loop of the last cell stops at the first ticker whose
    snapshot or whose sentiment call fails: it raises that error and
    requests nothing for the tickers after it; the list [resultados]
    keeps the results of the tickers before it, in list order, and gets
    nothing for the failing ticker. *)
Theorem resultados_fail_fast (w : World) (client : Client)
  (pre post : list str) (t : str) (e : error) (rs : list resultado) :
  Forall2 (fun t' r => answer_of (resultado_de w client t') = Done r)
    pre rs ->
  answer_of (resultado_de w client t) = Fail e ->
  resultados w client (pre ++ t :: post) []
  = {| run_actions :=
         flat_map (fun t' => actions (resultado_de w client t')) (pre ++ [t]);
       run_resultados := rs;
       run_error := Some e |}.
Proof.
  intros Hpre Ht.
  rewrite (resultados_fail w client pre post t e [] rs Hpre Ht).
  reflexivity.
Qed.

Lemma resultados_fail_fast_witness :
  resultados canned picky_client [lit "AAPL"; lit "MSFT"; lit "AAPL"] []
  = {| run_actions :=
         flat_map (fun t' => actions (resultado_de canned picky_client t'))
           [lit "AAPL"; lit "MSFT"];
       run_resultados :=
         [ {| res_ticker := lit "AAPL";
              res_nome := lit "Apple Inc.";
              res_cotacao := Some (lit "195.27");
              res_sentimento := lit "Sentimento geral: Neutro" |} ];
       run_error := Some APIError |}.
Proof.
  apply (resultados_fail_fast canned picky_client
           [lit "AAPL"] [lit "AAPL"] (lit "MSFT") APIError).
  - constructor; [|constructor]. vm_compute. reflexivity.
  - vm_compute. reflexivity.
Defined.

(** X17.  When the loop of the last cell ends without an exception, the
    list [resultados] holds one result per ticker, in list order; each
    holds its ticker, the name and the price of that ticker's snapshot,
    and the sentiment computed from the news and the price of that same
    snapshot. *)
Theorem resultados_rows (w : World) (client : Client) (tickers : list str) :
  run_error (resultados w client tickers []) = None ->
  Forall2
    (fun t r =>
       exists snap,
         outcome (analyze_stock w t 5) = Ok snap
         /\ res_ticker r = t
         /\ res_nome r = nome snap
         /\ res_cotacao r = preco_atual snap
         /\ answer_of (sentimento_geral_noticias (noticias snap)
                         (preco_atual snap) client default_deployment_name)
            = Done (res_sentimento r))
    tickers (run_resultados (resultados w client tickers [])).
Proof.
  intros H. destruct (resultados_done w client _ _ H) as (rs' & -> & HF).
  simpl. clear H. induction HF as [|t r ts rs0 Hr _ IH]; constructor;
    [|exact IH].
  rewrite resultado_de_run in Hr.
  destruct (outcome (analyze_stock w t 5)) as [snap|e]; [|discriminate].
  exists snap. unfold answer_of at 1 in Hr. simpl in Hr.
  destruct (answer_of (sentimento_geral_noticias _ _ _ _)) as [s|e];
    [|discriminate].
  injection Hr as <-. simpl. auto.
Qed.

Lemma resultados_rows_witness :
  Forall2
    (fun t r =>
       exists snap,
         outcome (analyze_stock canned t 5) = Ok snap
         /\ res_ticker r = t
         /\ res_nome r = nome snap
         /\ res_cotacao r = preco_atual snap
         /\ answer_of (sentimento_geral_noticias (noticias snap)
                         (preco_atual snap) canned_client
                         default_deployment_name)
            = Done (res_sentimento r))
    [lit "AAPL"; lit "MSFT"]
    (run_resultados
       (resultados canned canned_client [lit "AAPL"; lit "MSFT"] [])).
Proof.
  apply (resultados_rows canned canned_client [lit "AAPL"; lit "MSFT"]).
  vm_compute. reflexivity.
Defined.

(** The list the last cell builds on the fixtures. *)
Example resultados_canned :
  run_resultados (resultados canned canned_client [lit "AAPL"; lit "MSFT"] [])
  = [ {| res_ticker := lit "AAPL";
         res_nome := lit "Apple Inc.";
         res_cotacao := Some (lit "195.27");
         res_sentimento := lit "Sentimento geral: Neutro" |};
      {| res_ticker := lit "MSFT";
         res_nome := nome_nao_encontrado;
         res_cotacao := None;
         res_sentimento := lit "Sentimento geral: Neutro" |} ].
Proof. vm_compute. reflexivity. Qed.

(** X18.  Whatever the network and the client answer, the last cell sends
    at most one completion request per ticker, and every request it sends
    names the default deployment, holds a single user message, asks for
    at most 150 tokens and sets the temperature to 0. *)
Theorem completion_requests (w : World) (client : Client)
  (tickers : list str) :
  Forall (fun req =>
            model req = default_deployment_name
            /\ max_tokens req = 150%Z
            /\ temperature req = 0%Z
            /\ exists p, messages req = [(lit "user", p)])
    (chats (run_actions (resultados w client tickers [])))
  /\ List.length (chats (run_actions (resultados w client tickers [])))
     <= List.length tickers.
Proof.
  generalize (@nil resultado) as acc.
  induction tickers as [|t rest IH]; intros acc.
  - split; [constructor|simpl; lia].
  - simpl resultados.
    pose proof (chats_resultado_de w client t) as Ht.
    destruct (resultado_de w client t) as [tr [r|e]].
    + cbn [run_actions]. rewrite chats_app.
      destruct (IH (acc ++ [r])) as [IH1 IH2].
      unfold actions in Ht. simpl in Ht.
      destruct Ht as [->|(snap & _ & ->)].
      * split; [exact IH1|]. simpl. lia.
      * split.
        -- constructor; [|exact IH1]. simpl.
           repeat split; try reflexivity. eexists. reflexivity.
        -- simpl. lia.
    + unfold actions in *. simpl in *.
      destruct Ht as [->|(snap & _ & ->)].
      * split; [constructor|simpl; lia].
      * split; [|simpl; lia].
        constructor; [|constructor]. simpl.
        repeat split; try reflexivity. eexists. reflexivity.
Qed.

(** X20.  A snapshot without a price still goes to the completion
    service: when the page has no price element and the news step
    returns, the one request of that ticker is sent, and its prompt reads
    ["Cotação atual: None"]. *)
Theorem missing_price_reaches_prompt (w : World) (client : Client)
  (t : str) (r : Response) (news : list noticia) :
  net w (quote_url t) [(lit "User-Agent", lit "Mozilla/5.0")] = Some r ->
  absent (lit "span") (attr_is (lit "data-testid") (lit "qsp-price"))
    (parser w (lit "html.parser") (body r)) ->
  outcome (get_latest_news w t 5) = Ok news ->
  exists req p,
    chats (actions (resultado_de w client t)) = [req]
    /\ messages req = [(lit "user", p)]
    /\ contains (utf8 "Cotação atual: None") p = true.
Proof.
  intros Hnet Hp Hnews.
  assert (exists nm, outcome (analyze_stock w t 5)
                     = Ok {| ticker := t; nome := nm;
                             preco_atual := None; noticias := news |})
    as [nm Hsnap].
  { unfold analyze_stock.
    rewrite (fetch_page_run w t r Hnet), bind_ok.
    destruct (get_latest_news w t 5) as [tr o]. simpl in Hnews. subst o.
    unfold get_current_price. rewrite (find_absent _ _ _ Hp).
    eexists. reflexivity. }
  rewrite resultado_de_run, Hsnap. unfold actions. simpl fst.
  rewrite chats_app, chats_net. simpl.
  eexists. eexists. split; [reflexivity|]. split; [reflexivity|].
  unfold prompt. cbv zeta. do 5 apply contains_app_r.
  rewrite app_assoc. apply contains_app_l.
  vm_compute. reflexivity.
Qed.

Lemma missing_price_reaches_prompt_witness :
  exists req p,
    chats (actions (resultado_de canned canned_client (lit "MSFT"))) = [req]
    /\ messages req = [(lit "user", p)]
    /\ contains (utf8 "Cotação atual: None") p = true.
Proof.
  apply (missing_price_reaches_prompt canned canned_client (lit "MSFT")
           {| status_code := 200; body := lit "<html>MSFT</html>" |}
           (firstn 2 aapl_rows)).
  - reflexivity.
  - apply absent_scan. reflexivity.
  - vm_compute. reflexivity.
Defined.
